(** * log_analyzer.py: extraction, aggregation, statistics and ranking

    A shallow embedding of the core of [log_analyzer.py]:
    [log_parser] (lines 86-98), [analyze_log] (lines 101-121) and
    [count_stats] (lines 124-156), together with the Python built-ins
    they call ([str.split], [sum], [max], [sorted], [statistics.median],
    list slicing and the generator protocol). *)

From Stdlib Require Import String Ascii Bool ZArith QArith Qcanon Lia List.
From Stdlib Require Import Sorting.Sorted Sorting.Permutation.
From Stdlib Require Import Floats.
Import ListNotations.

Set Implicit Arguments.
Set Warnings "-inexact-float".

(** ** Python exceptions and fallible computations *)

(** The exceptions the modelled code can raise. *)
Inductive exn : Type :=
| IndexError          (* [log_row[7]] on a short row *)
| ValueError          (* [float(...)] on a non-number, [max([])] *)
| ZeroDivisionError   (* [time_sum / len(request_times)] on an empty list *)
| StatisticsError     (* [statistics.median([])] *)
| StopIteration       (* [next(file)] at end of file *)
| RuntimeError.       (* PEP 479: StopIteration leaking out of a generator *)

(** A computation that returns a value or raises. *)
Inductive result (A : Type) : Type :=
| Ok (a : A)
| Raised (e : exn).

Arguments Ok {A} a.
Arguments Raised {A} e.

Definition bind {A B : Type} (c : result A) (k : A -> result B) : result B :=
  match c with
  | Ok a => k a
  | Raised e => Raised e
  end.

Notation "x <- c ;; k" := (bind c (fun x => k))
  (at level 61, c at next level, right associativity).

(** [for x in l: ys.append(f x)], stopping at the first exception. *)
Fixpoint mapM {A B : Type} (f : A -> result B) (l : list A) : result (list B) :=
  match l with
  | [] => Ok []
  | a :: l' => b <- f a ;; bs <- mapM f l' ;; Ok (b :: bs)
  end.

(** ** Numbers

    The request times are Python floats and the counters Python ints.
    Ints are [Z].  The float operations the code uses are collected in a
    class, so that the program can be run both on IEEE binary64 numbers
    and on exact rationals. *)

Class PyNumber (R : Type) : Type := {
  of_int : Z -> R;          (* the int -> float coercion of mixed arithmetic *)
  add : R -> R -> R;        (* [+] *)
  mul : R -> R -> R;        (* [*] *)
  div : R -> R -> R;        (* [/], applied to non-zero divisors only *)
  ltb : R -> R -> bool      (* [<] *)
}.

(** [x <= y] as the negation of [y < x]. *)
Definition leR {R : Type} `{PyNumber R} (x y : R) : Prop := ltb y x = false.

(** The laws of exact arithmetic used by the conservation and order
    arguments: addition is a commutative monoid and [<] is a strict
    total order. *)
Class ExactArith (R : Type) `{PyNumber R} : Prop := {
  add_0_l : forall x : R, add (of_int 0) x = x;
  add_comm : forall x y : R, add x y = add y x;
  add_assoc : forall x y z : R, add x (add y z) = add (add x y) z;
  ltb_irrefl : forall x : R, ltb x x = false;
  ltb_asym : forall x y : R, ltb x y = true -> ltb y x = false;
  leR_trans : forall x y z : R, leR x y -> leR y z -> leR x z;
  leR_antisym : forall x y : R, leR x y -> leR y x -> x = y
}.

Arguments ExactArith R {_}.

(** Exact rationals in canonical form. *)
#[export] Instance PyNumber_Qc : PyNumber Qc := {
  of_int z := Q2Qc (inject_Z z);
  add := Qcplus;
  mul := Qcmult;
  div := Qcdiv;
  ltb x y := match (x ?= y)%Qc with Lt => true | _ => false end
}.

(** IEEE 754 binary64, the representation of a CPython float.  The
    coercion is exact for ints below 2^53 in absolute value. *)
Definition float_of_int (z : Z) : float :=
  match z with
  | Z0 => PrimFloat.zero
  | Zpos _ => PrimFloat.of_uint63 (Uint63.of_Z z)
  | Zneg p => PrimFloat.opp (PrimFloat.of_uint63 (Uint63.of_Z (Zpos p)))
  end.

#[export] Instance PyNumber_float : PyNumber float := {
  of_int := float_of_int;
  add := PrimFloat.add;
  mul := PrimFloat.mul;
  div := PrimFloat.div;
  ltb := PrimFloat.ltb
}.

(** A decimal fraction [n / d] as a canonical rational. *)
Definition dec (n : Z) (d : positive) : Qc := Q2Qc (n # d).

(** ** Built-ins on sequences *)

Section Builtins.

Context {R : Type} `{PyNumber R}.

(** [sum(xs)]: left to right, starting from the int [0].  (From
    CPython 3.12 on, [sum] compensates the rounding errors of a float
    sum; over exact arithmetic that changes nothing.) *)
Definition py_sum (xs : list R) : R := fold_left add xs (of_int 0).

(** [max(xs)]: the first element is the candidate, and a later element
    replaces it only when it is strictly greater; [ValueError] on an
    empty sequence. *)
Definition py_max (xs : list R) : result R :=
  match xs with
  | [] => Raised ValueError
  | x :: xs' => Ok (fold_left (fun m y => if ltb m y then y else m) xs' x)
  end.

End Builtins.

(** [sorted(xs)] is a stable sort that compares with [<] only.
    [before y x] says that [y] must precede [x]; an element is inserted
    in front of the sorted rest and moves right only past elements that
    must precede it, so equal elements keep their input order. *)
Section Sorted.

Variable A : Type.
Variable before : A -> A -> bool.

Fixpoint insort (x : A) (l : list A) : list A :=
  match l with
  | [] => [x]
  | y :: l' => if before y x then y :: insort x l' else x :: y :: l'
  end.

Definition py_sorted (l : list A) : list A := fold_right insort [] l.

(** [x] may stand in front of [y]: [y] need not precede [x]. *)
Definition in_order (x y : A) : Prop := before y x = false.

End Sorted.

(** [l[0:n]] for an int [n]: a negative bound counts from the end. *)
Definition slice_to {A : Type} (n : Z) (l : list A) : list A :=
  if (n <? 0)%Z
  then firstn (Z.to_nat (Z.of_nat (length l) + n)) l
  else firstn (Z.to_nat n) l.

Section Median.

Context {R : Type} `{PyNumber R}.

(** [statistics.median]: sort, then the middle element, or the mean of
    the two middle elements. *)
Definition median (data : list R) : result R :=
  let data := py_sorted ltb data in
  let n := length data in
  match n with
  | O => Raised StatisticsError
  | _ =>
    if Nat.eqb (n mod 2) 1
    then match nth_error data (n / 2) with
         | Some x => Ok x
         | None => Raised IndexError
         end
    else let i := (n / 2)%nat in
         match nth_error data (i - 1), nth_error data i with
         | Some x, Some y => Ok (div (add x y) (of_int 2))
         | _, _ => Raised IndexError
         end
  end.

End Median.

(** ** Strings *)

Local Open Scope string_scope.

(** [s.split(sep)] for a one-character separator: every occurrence of
    the separator ends a field, so two adjacent separators delimit an
    empty field and the result is never empty. *)
Fixpoint split (sep : ascii) (s : string) : list string :=
  match s with
  | EmptyString => [EmptyString]
  | String c s' =>
    if Ascii.eqb c sep then EmptyString :: split sep s'
    else match split sep s' with
         | [] => [String c EmptyString]
         | field :: fields => String c field :: fields
         end
  end.

(** Python's ASCII whitespace: tab, line feed, vertical tab, form feed,
    carriage return, the four separators 28-31 and space. *)
Definition is_space (c : ascii) : bool :=
  let n := nat_of_ascii c in
  ((9 <=? n) && (n <=? 13) || (28 <=? n) && (n <=? 32))%nat.

(** The whitespace-delimited tokens of a line, as [s.split()] without
    an argument gives them: the maximal runs of non-whitespace
    characters.  This is the reading of "whitespace-delimited token" the
    extractor is compared with. *)
Fixpoint fields_ws (s : string) : list string :=
  match s with
  | EmptyString => [EmptyString]
  | String c s' =>
    if is_space c then EmptyString :: fields_ws s'
    else match fields_ws s' with
         | [] => [String c EmptyString]
         | field :: fields => String c field :: fields
         end
  end.

Definition nonempty (s : string) : bool :=
  match s with EmptyString => false | _ => true end.

Definition tokens (s : string) : list string := filter nonempty (fields_ws s).

(** *** A decimal reader for [float(s)]

    [float] is a built-in; the extractor below takes it as a parameter.
    For running the extractor on concrete lines, this reader covers the
    plain decimal literals of the log format: optional surrounding
    whitespace, an optional sign, digits with an optional point.
    (Python's [float] accepts more: exponents, underscores, inf, nan.) *)

Definition digit_of (c : ascii) : option Z :=
  let n := Z.of_nat (nat_of_ascii c) in
  if ((48 <=? n) && (n <=? 57))%Z then Some (n - 48)%Z else None.

Fixpoint lstrip (s : string) : string :=
  match s with
  | EmptyString => EmptyString
  | String c s' => if is_space c then lstrip s' else s
  end.

Fixpoint all_space (s : string) : bool :=
  match s with
  | EmptyString => true
  | String c s' => is_space c && all_space s'
  end.

(** [scan s m scale frac seen]: the digits read so far make the integer
    [m]; [scale] is 10 to the number of digits read after the point. *)
Fixpoint scan (s : string) (m scale : Z) (frac seen : bool) : option (Z * Z) :=
  match s with
  | EmptyString => if seen then Some (m, scale) else None
  | String c s' =>
    match digit_of c with
    | Some d => scan s' (10 * m + d)%Z (if frac then (10 * scale)%Z else scale) frac true
    | None =>
      if Ascii.eqb c "." && negb frac then scan s' m scale true seen
      else if seen && all_space s then Some (m, scale) else None
    end
  end.

Definition float_of_decimal {R : Type} `{PyNumber R} (s : string) : option R :=
  let s := lstrip s in
  let '(sign, body) :=
    match s with
    | String "-" s' => ((-1)%Z, s')
    | String "+" s' => (1%Z, s')
    | _ => (1%Z, s)
    end in
  match scan body 0 1 false false with
  | Some (m, scale) => Some (div (of_int (sign * m)) (of_int scale))
  | None => None
  end.

(** ** Generators

    A generator that ends is a finite sequence of yields closed either
    by a normal return or by an exception.  A [for] loop over it runs
    its body on each yielded value, ends at [Return] and propagates the
    exception at [Raise]. *)
Inductive generator (A : Type) : Type :=
| Yield (a : A) (rest : generator A)
| Return
| Raise (e : exn).

Arguments Return {A}.
Arguments Raise {A} e.

(** A list seen as an iterable. *)
Fixpoint iter {A : Type} (l : list A) : generator A :=
  match l with
  | [] => Return
  | a :: l' => Yield a (iter l')
  end.

(** The values a generator yields before it ends. *)
Fixpoint yielded {A : Type} (g : generator A) : list A :=
  match g with
  | Yield a rest => a :: yielded rest
  | _ => []
  end.

(** How a generator ends: [None] for a normal return. *)
Fixpoint ending {A : Type} (g : generator A) : option exn :=
  match g with
  | Yield _ rest => ending rest
  | Return => None
  | Raise e => Some e
  end.

(** An exception that escapes the body of a generator.  With
    [generator_stop] (PEP 479: opt-in from Python 3.5, the only
    behaviour from Python 3.7 on) a [StopIteration] is replaced by a
    [RuntimeError]; without it, it ends the generator like a return. *)
Definition escape {A : Type} (generator_stop : bool) (e : exn) : generator A :=
  match e with
  | StopIteration => if generator_stop then Raise RuntimeError else Return
  | _ => Raise e
  end.

(** ** The Record Extractor: [log_parser] *)

Section Extractor.

Context {R : Type}.
Variable generator_stop : bool.
Variable float : string -> option R.   (* [float(s)]; [None] is ValueError *)

(** One turn of the [while True] loop on the line [next(file)]
    returned. *)
Definition parse_row (line : string) : result (string * R) :=
  let log_row := split " " line in
  match nth_error log_row 7 with
  | None => Raised IndexError
  | Some request_url =>
    match float (last log_row EmptyString) with
    | None => Raised ValueError
    | Some request_time => Ok (request_url, request_time)
    end
  end.

(** The file is the list of the lines its iterator returns, each with
    its line terminator.  At the end of the file [next(file)] raises
    [StopIteration] inside the generator body. *)
Fixpoint log_parser (file : list string) : generator (string * R) :=
  match file with
  | [] => escape generator_stop StopIteration
  | line :: file' =>
    match parse_row line with
    | Raised e => escape generator_stop e
    | Ok url_and_time => Yield url_and_time (log_parser file')
    end
  end.

End Extractor.

(** ** The Aggregator: [analyze_log] *)

(** A dict keeps its keys in insertion order; assigning to a key that is
    present replaces the value in place, assigning to a new key appends
    an entry. *)
Section Dict.

Variable V : Type.

Definition dict : Type := list (string * V).

Fixpoint dict_get (k : string) (d : dict) : option V :=
  match d with
  | [] => None
  | (k', v) :: d' => if String.eqb k' k then Some v else dict_get k d'
  end.

Fixpoint dict_set (k : string) (v : V) (d : dict) : dict :=
  match d with
  | [] => [(k, v)]
  | (k', v') :: d' =>
    if String.eqb k' k then (k', v) :: d' else (k', v') :: dict_set k v d'
  end.

Definition keys (d : dict) : list string := map fst d.
Definition values (d : dict) : list V := map snd d.

End Dict.

(** [urls[request_url]]: the count and the request times of a url. *)
Record aggregate (R : Type) : Type := {
  count : Z;
  request_times : list R
}.

Record totals (R : Type) : Type := {
  total_requests : Z;
  total_time : R
}.

Section Aggregator.

Context {R : Type} `{PyNumber R}.

(** The body of the [for] loop (lines 109-119). *)
Definition observe (st : totals R * dict (aggregate R)) (url_and_time : string * R)
  : totals R * dict (aggregate R) :=
  let '(totals, urls) := st in
  let '(request_url, request_time) := url_and_time in
  let totals :=
    {| total_requests := total_requests totals + 1;
       total_time := add (total_time totals) request_time |} in
  match dict_get request_url urls with
  | Some a =>
    (totals,
     dict_set request_url
       {| count := count a + 1;
          request_times := request_times a ++ [request_time] |} urls)
  | None =>
    (totals,
     dict_set request_url {| count := 1; request_times := [request_time] |} urls)
  end.

Fixpoint consume (parser : generator (string * R))
  (st : totals R * dict (aggregate R)) : result (totals R * dict (aggregate R)) :=
  match parser with
  | Yield url_and_time rest => consume rest (observe st url_and_time)
  | Return => Ok st
  | Raise e => Raised e
  end.

Definition initial : totals R * dict (aggregate R) :=
  ({| total_requests := 0; total_time := of_int 0 |}, []).

Definition analyze_log (parser : generator (string * R))
  : result (totals R * dict (aggregate R)) :=
  consume parser initial.

End Aggregator.

(** ** The Statistics Calculator and the Rank Selector: [count_stats] *)

Module ReportRow.
Record t (R : Type) : Type := {
  url : string;
  count : Z;
  count_perc : R;
  time_sum : R;
  time_perc : R;
  time_avg : R;
  time_max : R;
  time_med : R
}.
End ReportRow.

Section Statistics.

Context {R : Type} `{PyNumber R}.

(** [x / n] for an int [n]. *)
Definition true_div (x : R) (n : Z) : result R :=
  if (n =? 0)%Z then Raised ZeroDivisionError else Ok (div x (of_int n)).

(** The body of the loop over [urls.items()] (lines 132-151). *)
Definition url_stats (totals : totals R) (item : string * aggregate R)
  : result (ReportRow.t R) :=
  let total_requests := total_requests totals in
  let total_time := total_time totals in
  let '(url, count_and_times) := item in
  let count := count count_and_times in
  let request_times := request_times count_and_times in
  let time_sum := py_sum request_times in
  time_avg <- true_div time_sum (Z.of_nat (length request_times)) ;;
  time_max <- py_max request_times ;;
  time_med <- median request_times ;;
  let count_perc := div (of_int (count * total_requests)) (of_int 100) in
  let time_perc := div (mul time_sum total_time) (of_int 100) in
  Ok {| ReportRow.url := url;
        ReportRow.count := count;
        ReportRow.count_perc := count_perc;
        ReportRow.time_sum := time_sum;
        ReportRow.time_perc := time_perc;
        ReportRow.time_avg := time_avg;
        ReportRow.time_max := time_max;
        ReportRow.time_med := time_med |}.

(** [sorted(_report, key=lambda item: item["count"], reverse=True)]:
    a row precedes another when its count is greater; rows of equal
    count keep their order. *)
Definition by_count_desc (a b : ReportRow.t R) : bool := (ReportRow.count b <? ReportRow.count a)%Z.

(** Lines 153-154. *)
Definition rank (report_size : Z) (_report : list (ReportRow.t R)) : list (ReportRow.t R) :=
  let _sorted_report := py_sorted by_count_desc _report in
  slice_to report_size _sorted_report.

Definition count_stats (totals : totals R) (urls : dict (aggregate R))
  (report_size : Z) : result (list (ReportRow.t R)) :=
  _report <- mapM (url_stats totals) urls ;;
  Ok (rank report_size _report).

(** [analyze_log] followed by [count_stats], as in [main]. *)
Definition pipeline (parser : generator (string * R)) (report_size : Z)
  : result (list (ReportRow.t R)) :=
  st <- analyze_log parser ;;
  count_stats (fst st) (snd st) report_size.

End Statistics.

(** ** File discovery: [find_newest_log_file] and the report path *)

(** [class LogFile(NamedTuple)] (lines 44-48). *)
Record LogFile : Type := {
  path_to_file : string;
  file_name : string;
  date_in_file_name : string;
  extension : option string
}.

Definition LOG_EXTENSION : string := ".gz".

(** [s.startswith(prefix)], returning what follows the prefix. *)
Fixpoint strip_prefix (prefix s : string) : option string :=
  match prefix with
  | EmptyString => Some s
  | String c prefix' =>
    match s with
    | String c' s' => if Ascii.eqb c c' then strip_prefix prefix' s' else None
    | EmptyString => None
    end
  end.

Definition startswith (s prefix : string) : bool :=
  match strip_prefix prefix s with Some _ => true | None => false end.

(** [s.endswith(suffix)]. *)
Definition endswith (s suffix : string) : bool :=
  let n := String.length s in
  let m := String.length suffix in
  (m <=? n)%nat && String.eqb (substring (n - m) m s) suffix.

Definition is_digit (c : ascii) : bool :=
  match digit_of c with Some _ => true | None => false end.

(** The regular expression [\d{n}] (on ASCII digits), returning what
    follows the digits. *)
Fixpoint strip_digits (n : nat) (s : string) : option string :=
  match n with
  | O => Some s
  | S n' =>
    match s with
    | String c s' => if is_digit c then strip_digits n' s' else None
    | EmptyString => None
    end
  end.

(** The regular expression [$] without the multi-line flag: the end of
    the string, or the position before a line feed that ends it. *)
Definition at_end (s : string) : bool :=
  match s with
  | EmptyString => true
  | String c EmptyString => Ascii.eqb c (ascii_of_nat 10)
  | _ => false
  end.

(** [re.compile(LOG_NAME_PATTERN).match(file)] for the pattern
    [nginx-access-ui.log-(\d{8}|\d{8}\.gz)$] (line 39): the match starts
    at the first character; the dot after [ui] is not escaped and
    stands for any character but a line feed. *)
Definition log_name_match (file : string) : bool :=
  match strip_prefix "nginx-access-ui" file with
  | Some (String c rest) =>
    negb (Ascii.eqb c (ascii_of_nat 10))
    && match strip_prefix "log-" rest with
       | Some rest =>
         match strip_digits 8 rest with
         | Some tail =>
           at_end tail
           || match strip_prefix ".gz" tail with
              | Some tail' => at_end tail'
              | None => false
              end
         | None => false
         end
       | None => false
       end
  | _ => false
  end.

(** [bisect.insort_right(a, x)] on a sorted list: [x] is inserted in
    front of the first element that is greater than [x], after the
    elements equal to it.  Strings are compared by code point. *)
Fixpoint insort_right (x : string) (a : list string) : list string :=
  match a with
  | [] => [x]
  | y :: a' => if String.ltb x y then x :: a else y :: insort_right x a'
  end.

Section FileDiscovery.

(** [datetime.strptime(s, "%Y%m%d").strftime("%Y.%m.%d")], a library
    call; it raises [ValueError] on what is not a date. *)
Variable reformat_date : string -> result string.

(** Lines 73-75. *)
Definition _get_date_in_the_name (log_file_name : string) : result string :=
  match nth_error (split "-" log_file_name) 3 with
  | None => Raised IndexError
  | Some field =>
    match split "." field with
    | stripped_date :: _ => reformat_date stripped_date
    | [] => Raised IndexError
    end
  end.

(** The loop of lines 56-59 over [os.listdir(log_dir)]. *)
Definition matching_log_files (listing : list string) : list string :=
  fold_left
    (fun log_files file =>
       if log_name_match file then insort_right file log_files else log_files)
    listing [].

(** Lines 51-70; [listing] is what [os.listdir(log_dir)] returns, in
    any order.  [log_files.pop()] takes the last element. *)
Definition find_newest_log_file (log_dir : string) (listing : list string)
  : result (option LogFile) :=
  let log_files := matching_log_files listing in
  match log_files with
  | [] => Ok None
  | _ =>
    let newest_log := last log_files EmptyString in
    newest_log_date <- _get_date_in_the_name newest_log ;;
    Ok (Some {| path_to_file := log_dir;
                file_name := newest_log;
                date_in_file_name := newest_log_date;
                extension := if endswith newest_log LOG_EXTENSION
                             then Some LOG_EXTENSION else None |})
  end.

End FileDiscovery.

(** [os.path.join(a, b)] of [posixpath]. *)
Definition os_path_join (a b : string) : string :=
  if startswith b "/" then b
  else if negb (nonempty a) || endswith a "/" then a ++ b
  else a ++ "/" ++ b.

(** [REPORT_NAME_PATTERN.format(report_date)] for the pattern
    [report-{}.html] (line 38). *)
Definition report_name (report_date : string) : string :=
  "report-" ++ report_date ++ ".html".

(** Lines 78-79. *)
Definition build_report_path (report_dir report_date : string) : string :=
  os_path_join report_dir (report_name report_date).

(** How [log_parser] opens the file (lines 88-89). *)
Inductive opener : Type := plain_open | gzip_open.

Definition log_path (log_file : LogFile) : string :=
  os_path_join (path_to_file log_file) (file_name log_file).

Definition file_opener (log_file : LogFile) : opener :=
  match extension log_file with
  | Some e => if nonempty e then gzip_open else plain_open
  | None => plain_open
  end.

(** *** A reader for the date conversion

    For running the file discovery on concrete names: what
    [datetime.strptime(s, "%Y%m%d").strftime("%Y.%m.%d")] does on a
    string of eight digits, namely [ValueError] unless the digits are a
    calendar date from year 1 on.  ([strptime] accepts some other
    strings too, and the padding of [%Y] below year 1000 depends on the
    platform; this reader rejects the former and keeps the four
    digits.) *)

Fixpoint digits_value (s : string) (acc : Z) : option Z :=
  match s with
  | EmptyString => Some acc
  | String c s' =>
    match digit_of c with
    | Some d => digits_value s' (10 * acc + d)%Z
    | None => None
    end
  end.

Definition is_leap (y : Z) : bool :=
  ((y mod 4 =? 0) && negb (y mod 100 =? 0) || (y mod 400 =? 0))%Z.

Definition days_in_month (y m : Z) : Z :=
  if (m =? 2)%Z then (if is_leap y then 29 else 28)%Z
  else if ((m =? 4) || (m =? 6) || (m =? 9) || (m =? 11))%Z then 30%Z
  else 31%Z.

Definition reformat_eight_digits (s : string) : result string :=
  if (String.length s =? 8)%nat then
    match digits_value (substring 0 4 s) 0,
          digits_value (substring 4 2 s) 0,
          digits_value (substring 6 2 s) 0 with
    | Some y, Some m, Some d =>
      if ((1 <=? y) && (1 <=? m) && (m <=? 12) && (1 <=? d)
          && (d <=? days_in_month y m))%Z
      then Ok (substring 0 4 s ++ "." ++ substring 4 2 s ++ "." ++ substring 6 2 s)
      else Raised ValueError
    | _, _, _ => Raised ValueError
    end
  else Raised ValueError.

(** ** Sample inputs *)

(** The double quote character. *)
Definition dq : string := String (ascii_of_nat 34) EmptyString.

(** The line feed that ends a line. *)
Definition lf : string := String (ascii_of_nat 10) EmptyString.

(** A line in the [ui_short] format of the header comment (lines 5-8
    of the source): two spaces follow [$remote_addr], [$time_local] and
    [$request] contain spaces of their own, [$request_time] is last. *)
Definition sample_line : string :=
  "1.196.116.32  - - [29/Jun/2017:03:50:22 +0300] " ++ dq
  ++ "GET /api/v2/banner/25019354 HTTP/1.1" ++ dq ++ " 200 927 " ++ dq ++ "-" ++ dq
  ++ " " ++ dq ++ "Lynx/2.8.8dev.9 libwww-FM/2.14 SSL-MM/1.4.1 GNU/TLS/2.12.23" ++ dq
  ++ " " ++ dq ++ "-" ++ dq ++ " " ++ dq ++ "1498697422-2190034393-4708-9752759" ++ dq
  ++ " " ++ dq ++ "dc7161be3" ++ dq ++ " 0.390" ++ lf.

(** The same request with an empty request target. *)
Definition no_target_line : string :=
  "1.196.116.32  - - [29/Jun/2017:03:50:22 +0300] " ++ dq
  ++ "GET  HTTP/1.1" ++ dq ++ " 400 0 " ++ dq ++ "-" ++ dq ++ " 0.5" ++ lf.

(** A line of three fields. *)
Definition short_line : string := "a b 0.5" ++ lf.

(** ** Vocabulary of the statements *)

(** [sep.join(l)]. *)
Fixpoint join (sep : string) (l : list string) : string :=
  match l with
  | [] => EmptyString
  | x :: l' =>
    match l' with
    | [] => x
    | _ => x ++ sep ++ join sep l'
    end
  end.

(** [c in s]. *)
Fixpoint has_char (c : ascii) (s : string) : bool :=
  match s with
  | EmptyString => false
  | String c' s' => Ascii.eqb c' c || has_char c s'
  end.

Section Vocabulary.

Context {R : Type} `{PyNumber R}.

(** The sum of a sequence, as the recursive mathematical sum. *)
Definition sumR (xs : list R) : R := fold_right add (of_int 0) xs.

(** The state of the Aggregator after it has consumed the given
    records, in order. *)
Definition aggregated (records : list (string * R))
  : totals R * dict (aggregate R) :=
  fold_left observe records initial.

(** The invariant of a ResourceAggregate. *)
Definition count_is_length (a : aggregate R) : Prop :=
  count a = Z.of_nat (length (request_times a)).

(** The sum of [count] over the entries of the map. *)
Definition sum_of_counts (urls : dict (aggregate R)) : Z :=
  fold_right Z.add 0%Z (map (@count R) (values urls)).

(** The sum over the entries of the map of the time sum of the entry,
    as [count_stats] computes it. *)
Definition sum_of_time_sums (urls : dict (aggregate R)) : R :=
  sumR (map (fun a => py_sum (request_times a)) (values urls)).

End Vocabulary.

(** [precedes x y l]: [x] occurs in [l] at some position and [y] at a
    later one. *)
Inductive precedes {A : Type} (x y : A) : list A -> Prop :=
| precedes_here (l : list A) : In y l -> precedes x y (x :: l)
| precedes_later (a : A) (l : list A) : precedes x y l -> precedes x y (a :: l).

(** The position of the first occurrence of a key, the length of the
    list when there is none. *)
Fixpoint index_of (k : string) (l : list string) : nat :=
  match l with
  | [] => O
  | k' :: l' => if String.eqb k' k then O else S (index_of k l')
  end.

(** Two rows of a report, for running the Rank Selector alone. *)
Definition sample_report : list (ReportRow.t float) :=
  [ {| ReportRow.url := "/b"; ReportRow.count := 1; ReportRow.count_perc := 0.03%float;
       ReportRow.time_sum := 0.2%float; ReportRow.time_perc := 0.0012%float;
       ReportRow.time_avg := 0.2%float; ReportRow.time_max := 0.2%float;
       ReportRow.time_med := 0.2%float |};
    {| ReportRow.url := "/a"; ReportRow.count := 2; ReportRow.count_perc := 0.06%float;
       ReportRow.time_sum := 0.4%float; ReportRow.time_perc := 0.0024%float;
       ReportRow.time_avg := 0.2%float; ReportRow.time_max := 0.3%float;
       ReportRow.time_med := 0.2%float |} ].



(** The samples of a resource in a sequence of records, in arrival
    order. *)
Definition samples_of {R : Type} (url : string) (records : list (string * R))
  : list R :=
  map snd (filter (fun r => String.eqb (fst r) url) records).


(** * Properties *)

Local Open Scope list_scope.

(** Equalities between concrete canonical rationals. *)
Ltac qc_eq := apply Qc_is_canon; vm_compute; reflexivity.

Example sample_line_row :
  parse_row float_of_decimal sample_line = Ok ("/api/v2/banner/25019354", 0.39%float).
Proof. vm_compute. reflexivity. Qed.

Example sample_line_tokens :
  nth_error (tokens sample_line) 6 = Some "/api/v2/banner/25019354"
  /\ nth_error (tokens sample_line) 7 = Some ("HTTP/1.1" ++ dq)%string
  /\ last (tokens sample_line) "" = "0.390".
Proof. vm_compute. repeat split. Qed.

Example no_target_row :
  parse_row float_of_decimal no_target_line = Ok ("", 0.5%float).
Proof. vm_compute. reflexivity. Qed.

Example short_row :
  parse_row (float_of_decimal (R := float)) short_line = Raised IndexError.
Proof. vm_compute. reflexivity. Qed.

Example median_odd :
  median [1%float; 2%float; 3%float] = Ok 2%float.
Proof. vm_compute. reflexivity. Qed.

Example median_even :
  median [1%float; 2%float; 3%float; 4%float] = Ok 2.5%float.
Proof. vm_compute. reflexivity. Qed.

Example median_even_exact :
  exists m, median [dec 4 1; dec 1 1; dec 3 1; dec 2 1] = Ok m /\ m = dec 5 2.
Proof. eexists. split; [vm_compute; reflexivity | qc_eq]. Qed.

(** * The end-to-end scenario *)

(** C1.  On the three records (/a, 0.1), (/b, 0.2), (/a, 0.3) with
    report size 10, [analyze_log] followed by [count_stats] returns
    exactly two rows: /a with count 2, time sum 0.4, maximum 0.3 and
    median 0.2, then /b with count 1, time sum 0.2, maximum 0.2 and
    median 0.2.  This holds on binary64 floats, where the decimals are
    the nearest floats as in Python, and on exact rationals. *)
Theorem end_to_end_scenario :
  (exists a b : ReportRow.t float,
      pipeline (iter [("/a", 0.1%float); ("/b", 0.2%float); ("/a", 0.3%float)]) 10
      = Ok [a; b]
      /\ ReportRow.url a = "/a" /\ ReportRow.count a = 2%Z
      /\ ReportRow.time_sum a = 0.4%float /\ ReportRow.time_max a = 0.3%float
      /\ ReportRow.time_med a = 0.2%float
      /\ ReportRow.url b = "/b" /\ ReportRow.count b = 1%Z
      /\ ReportRow.time_sum b = 0.2%float /\ ReportRow.time_max b = 0.2%float
      /\ ReportRow.time_med b = 0.2%float)
  /\
  (exists a b : ReportRow.t Qc,
      pipeline (iter [("/a", dec 1 10); ("/b", dec 2 10); ("/a", dec 3 10)]) 10
      = Ok [a; b]
      /\ ReportRow.url a = "/a" /\ ReportRow.count a = 2%Z
      /\ ReportRow.time_sum a = dec 4 10 /\ ReportRow.time_max a = dec 3 10
      /\ ReportRow.time_med a = dec 2 10
      /\ ReportRow.url b = "/b" /\ ReportRow.count b = 1%Z
      /\ ReportRow.time_sum b = dec 2 10 /\ ReportRow.time_max b = dec 2 10
      /\ ReportRow.time_med b = dec 2 10).
Proof.
  split.
  - do 2 eexists. split; [vm_compute; reflexivity|].
    repeat split.
  - do 2 eexists. split; [vm_compute; reflexivity|].
    repeat split; qc_eq.
Qed.

(** * The Record Extractor *)

Lemma split_not_nil (sep : ascii) (s : string) : split sep s <> [].
Proof.
  destruct s as [|c s]; simpl; [discriminate|].
  destruct (Ascii.eqb c sep); [discriminate|].
  destruct (split sep s); discriminate.
Qed.

(** Joining the fields with the separator gives the line back. *)
Lemma join_split (sep : ascii) (s : string) :
  join (String sep EmptyString) (split sep s) = s.
Proof.
  induction s as [|c s IH]; simpl; [reflexivity|].
  destruct (Ascii.eqb_spec c sep) as [->|Hc].
  - pose proof (split_not_nil sep s) as Hn.
    change (join (String sep EmptyString) (EmptyString :: split sep s))
      with (match split sep s with
            | [] => EmptyString
            | _ => (EmptyString ++ String sep EmptyString
                    ++ join (String sep EmptyString) (split sep s))%string
            end).
    destruct (split sep s) as [|f fs] eqn:E; [contradiction|].
    simpl. simpl in IH. now rewrite IH.
  - destruct (split sep s) as [|f fs] eqn:E.
    + now destruct (split_not_nil sep s).
    + simpl in *. destruct fs as [|g gs]; simpl in *; now rewrite IH.
Qed.

(** No field contains the separator. *)
Lemma split_fields_free (sep : ascii) (s : string) :
  Forall (fun field => has_char sep field = false) (split sep s).
Proof.
  induction s as [|c s IH]; simpl.
  - constructor; [reflexivity|constructor].
  - destruct (Ascii.eqb c sep) eqn:Ec.
    + constructor; [reflexivity|exact IH].
    + destruct (split sep s) as [|f fs]; simpl.
      * constructor; [simpl; now rewrite Ec|constructor].
      * inversion IH; subst. constructor; [simpl; now rewrite Ec|assumption].
Qed.

Section ExtractorFacts.

Context {R : Type}.
Variable generator_stop : bool.
Variable float : string -> option R.

Lemma parse_row_raises (line : string) (e : exn) :
  parse_row float line = Raised e -> e = IndexError \/ e = ValueError.
Proof.
  unfold parse_row. destruct (nth_error _ 7); [|intros [= <-]; now left].
  destruct (float _); [discriminate|intros [= <-]; now right].
Qed.

Lemma log_parser_raise (line : string) (file : list string) (e : exn) :
  parse_row float line = Raised e ->
  log_parser generator_stop float (line :: file) = Raise e.
Proof.
  intros He. simpl. rewrite He.
  destruct (parse_row_raises _ He) as [-> | ->]; reflexivity.
Qed.

(** The lines that parse are yielded in order; what happens after them
    is decided by the rest of the file. *)
Lemma log_parser_prefix (good rest : list string) (records : list (string * R)) :
  Forall2 (fun line r => parse_row float line = Ok r) good records ->
  yielded (log_parser generator_stop float (good ++ rest))
  = records ++ yielded (log_parser generator_stop float rest)
  /\ ending (log_parser generator_stop float (good ++ rest))
     = ending (log_parser generator_stop float rest).
Proof.
  induction 1 as [|line r good records Hr _ [IHy IHe]]; simpl; [auto|].
  rewrite Hr. simpl. now rewrite IHy, IHe.
Qed.

(** Before PEP 479, a file whose lines all parse is extracted to a
    generator that ends with a normal return. *)
Lemma log_parser_legacy_end (file : list string) :
  Forall (fun line => exists r, parse_row float line = Ok r) file ->
  ending (log_parser false float file) = None.
Proof.
  induction 1 as [|line file [r Hr] _ IH]; simpl; [reflexivity|].
  now rewrite Hr.
Qed.

End ExtractorFacts.

(** C6, as the code has it.  For every line with at least eight fields
    whose last field [float] accepts, the extractor returns the eighth
    field as resource and the value of the last field as elapsed time,
    where the fields are those of [line.split(" ")]: the unique
    space-free strings that give the line back when joined by single
    spaces.  Adjacent spaces delimit an empty field, and the last field
    carries the line terminator. *)
Theorem extractor_eighth_field {R : Type} (float : string -> option R)
  (line : string) (request_time : R) :
  (8 <= length (split " " line))%nat ->
  float (last (split " " line) "") = Some request_time ->
  parse_row float line = Ok (nth 7 (split " " line) "", request_time)
  /\ join " " (split " " line) = line
  /\ Forall (fun field => has_char " " field = false) (split " " line).
Proof.
  intros Hlen Hfloat. split; [|split].
  - unfold parse_row.
    destruct (nth_error (split " " line) 7) as [u|] eqn:E.
    + rewrite Hfloat. now rewrite (nth_error_nth _ _ _ E).
    + apply nth_error_None in E. lia.
  - apply join_split.
  - apply split_fields_free.
Qed.

Lemma extractor_eighth_field_witness :
  parse_row float_of_decimal sample_line
  = Ok (nth 7 (split " " sample_line) "", 0.39%float).
Proof.
  apply (extractor_eighth_field float_of_decimal sample_line).
  - vm_compute. lia.
  - vm_compute. reflexivity.
Defined.

(** C6, as the claim has it, fails on a line of the documented format:
    the two adjacent spaces after the first field make the request
    target the eighth field of [split(" ")] but the seventh
    whitespace-delimited token; the eighth token is the protocol. *)
Lemma extractor_eighth_token_counterexample :
  parse_row float_of_decimal sample_line
  = Ok ("/api/v2/banner/25019354", 0.39%float)
  /\ nth_error (tokens sample_line) 7 = Some ("HTTP/1.1" ++ dq)%string
  /\ nth_error (tokens sample_line) 7 <> Some "/api/v2/banner/25019354".
Proof.
  split; [vm_compute; reflexivity|].
  split; [vm_compute; reflexivity|].
  vm_compute. intros H; discriminate H.
Qed.

(** C7, as the code has it.  A line with fewer than eight fields makes
    the extractor raise [IndexError]; a line with eight fields or more
    whose last field [float] rejects makes it raise [ValueError]; the
    exception ends the generator at that line, after the records of
    the lines before it and whatever follows it, so the run is aborted
    and no line is skipped.  An empty resource field is not rejected:
    the record is yielded with the empty resource. *)
Theorem extractor_malformed_rows {R : Type} (generator_stop : bool)
  (float : string -> option R) (line : string) :
  ((length (split " " line) < 8)%nat ->
   parse_row float line = Raised IndexError)
  /\ ((8 <= length (split " " line))%nat ->
      float (last (split " " line) "") = None ->
      parse_row float line = Raised ValueError)
  /\ (forall (e : exn) (good file : list string) (records : list (string * R)),
         Forall2 (fun l r => parse_row float l = Ok r) good records ->
         parse_row float line = Raised e ->
         yielded (log_parser generator_stop float (good ++ line :: file)) = records
         /\ ending (log_parser generator_stop float (good ++ line :: file)) = Some e)
  /\ (forall request_time : R,
         nth_error (split " " line) 7 = Some "" ->
         float (last (split " " line) "") = Some request_time ->
         parse_row float line = Ok ("", request_time)).
Proof.
  split; [|split; [|split]].
  - intros Hlen. unfold parse_row.
    assert (E : nth_error (split " " line) 7 = None)
      by (apply nth_error_None; lia).
    now rewrite E.
  - intros Hlen Hfloat. unfold parse_row.
    destruct (nth_error (split " " line) 7) eqn:E.
    + now rewrite Hfloat.
    + apply nth_error_None in E. lia.
  - intros e good file records Hgood He.
    destruct (@log_parser_prefix _ generator_stop float good (line :: file)
                records Hgood) as [Hy He'].
    rewrite Hy, He', (@log_parser_raise _ generator_stop float line file e He).
    simpl.
    now rewrite app_nil_r.
  - intros t Hurl Hfloat. unfold parse_row. now rewrite Hurl, Hfloat.
Qed.

Lemma extractor_malformed_rows_witness :
  parse_row (float_of_decimal (R := float)) short_line = Raised IndexError
  /\ (yielded (log_parser true (float_of_decimal (R := float))
                 [sample_line; short_line])
      = [("/api/v2/banner/25019354", 0.39%float)]
      /\ ending (log_parser true (float_of_decimal (R := float))
                   [sample_line; short_line])
         = Some IndexError)
  /\ parse_row float_of_decimal no_target_line = Ok ("", 0.5%float).
Proof.
  destruct (extractor_malformed_rows true (float_of_decimal (R := float)) short_line)
    as (Hshort & _ & Habort & _).
  destruct (extractor_malformed_rows true (float_of_decimal (R := float)) no_target_line)
    as (_ & _ & _ & Hempty).
  assert (Hs : parse_row (float_of_decimal (R := float)) short_line = Raised IndexError)
    by (apply Hshort; vm_compute; lia).
  split; [exact Hs|]. split.
  - apply (Habort IndexError [sample_line] []); [|exact Hs].
    constructor; [exact sample_line_row|constructor].
  - apply Hempty; vm_compute; reflexivity.
Defined.

(** C7, as the claim has it, fails: a line of the documented format
    whose request target is empty is neither rejected nor skipped; the
    extractor yields a record with the empty resource. *)
Lemma extractor_empty_resource_counterexample :
  nth_error (split " " no_target_line) 7 = Some ""
  /\ log_parser true float_of_decimal [no_target_line]
     = Yield ("", 0.5%float) (Raise RuntimeError)
  /\ log_parser false float_of_decimal [no_target_line]
     = Yield ("", 0.5%float) Return.
Proof. repeat split; vm_compute; reflexivity. Qed.

(** * The Aggregator on an empty sequence *)

(** C9, as the code has it.  On a sequence of zero records
    [analyze_log] does not fail: it returns zero totals and an empty
    map, [count_stats] then returns the empty report for every report
    size, and so does the pipeline. *)
Theorem empty_input_empty_report {R : Type} `{PyNumber R} (report_size : Z) :
  analyze_log (R := R) Return
  = Ok ({| total_requests := 0; total_time := of_int 0 |}, [])
  /\ count_stats {| total_requests := 0; total_time := of_int 0 |} [] report_size
     = Ok []
  /\ pipeline (R := R) (iter []) report_size = Ok [].
Proof.
  unfold pipeline, count_stats, rank, slice_to. simpl.
  repeat split; destruct (report_size <? 0)%Z; now rewrite ?firstn_nil.
Qed.

(** C9, as the claim has it, fails: on the empty sequence the
    Aggregator raises nothing. *)
Lemma empty_input_counterexample :
  ~ exists e : exn, analyze_log (R := float) (iter []) = Raised e.
Proof. intros [e He]. vm_compute in He. discriminate He. Qed.

(** * The Aggregator *)

Section DictFacts.

Variable V : Type.
Implicit Types (d : dict V) (k : string) (v : V).

Lemma dict_get_set_same k v d : dict_get k (dict_set k v d) = Some v.
Proof.
  induction d as [|[k' v'] d IH]; simpl.
  - now rewrite String.eqb_refl.
  - destruct (String.eqb k' k) eqn:E; simpl; now rewrite E.
Qed.

Lemma dict_get_set_other k k' v d :
  k' <> k -> dict_get k' (dict_set k v d) = dict_get k' d.
Proof.
  intros Hk. induction d as [|[k0 v0] d IH]; simpl.
  - destruct (String.eqb_spec k k'); [congruence|reflexivity].
  - destruct (String.eqb_spec k0 k) as [->|Hk0]; simpl.
    + destruct (String.eqb_spec k k'); [congruence|reflexivity].
    + now rewrite IH.
Qed.

Lemma dict_get_None k d : dict_get k d = None <-> ~ In k (keys d).
Proof.
  induction d as [|[k0 v0] d IH]; simpl; [tauto|].
  destruct (String.eqb_spec k0 k) as [->|Hk0].
  - split; [discriminate|]. intros Hn. exfalso. apply Hn. now left.
  - rewrite IH. tauto.
Qed.

Lemma keys_set_present k v v' d :
  dict_get k d = Some v -> keys (dict_set k v' d) = keys d.
Proof.
  induction d as [|[k0 v0] d IH]; simpl; [discriminate|].
  destruct (String.eqb k0 k); simpl; [reflexivity|].
  intros Hg. now rewrite IH.
Qed.

Lemma dict_set_absent k v d :
  dict_get k d = None -> dict_set k v d = d ++ [(k, v)].
Proof.
  induction d as [|[k0 v0] d IH]; simpl; [reflexivity|].
  destruct (String.eqb k0 k); [discriminate|].
  intros Hg. now rewrite IH.
Qed.

Lemma Forall_values_set (P : V -> Prop) k v d :
  P v -> Forall P (values d) -> Forall P (values (dict_set k v d)).
Proof.
  intros Hv. induction d as [|[k0 v0] d IH]; simpl; intros Hd.
  - now constructor.
  - inversion Hd; subst.
    destruct (String.eqb k0 k); simpl; constructor; auto.
Qed.

Lemma dict_get_In_values k v d : dict_get k d = Some v -> In v (values d).
Proof.
  induction d as [|[k0 v0] d IH]; simpl; [discriminate|].
  destruct (String.eqb k0 k).
  - intros [= ->]. now left.
  - intros Hg. right. now apply IH.
Qed.

(** The effect of an assignment on a sum over the values, in a
    commutative monoid: replacing a value whose weight grows by [t], or
    adding a value of weight [t], adds [t] to the sum. *)
Section Sums.

Variable M : Type.
Variable op : M -> M -> M.
Variable e : M.
Hypothesis op_e_r : forall x, op x e = x.
Hypothesis op_comm : forall x y, op x y = op y x.
Hypothesis op_assoc : forall x y z, op x (op y z) = op (op x y) z.
Variable weight : V -> M.

Lemma fold_right_set k v d (t : M) :
  match dict_get k d with
  | Some v0 => weight v = op (weight v0) t
  | None => weight v = t
  end ->
  fold_right op e (map weight (values (dict_set k v d)))
  = op (fold_right op e (map weight (values d))) t.
Proof.
  induction d as [|[k0 v0] d IH]; simpl.
  - intros ->. now rewrite op_e_r, op_comm, op_e_r.
  - destruct (String.eqb k0 k); simpl.
    + intros ->.
      rewrite <- !op_assoc. f_equal. apply op_comm.
    + intros Hw. rewrite (IH Hw). apply op_assoc.
  Qed.

End Sums.

End DictFacts.

Section AggregatorFacts.

Context {R : Type} `{PyNumber R}.
Implicit Types (st : totals R * dict (aggregate R)) (records : list (string * R)).

(** A [for] loop over a generator runs its body on each yielded value
    and returns if the generator returns. *)
Lemma consume_generator (parser : generator (string * R)) st :
  consume parser st
  = match ending parser with
    | None => Ok (fold_left observe (yielded parser) st)
    | Some e => Raised e
    end.
Proof.
  revert st. induction parser as [r rest IH| |e]; intros st; simpl; auto.
Qed.

(** A [for] loop over a list runs its body on each element. *)
Lemma consume_iter records st :
  consume (iter records) st = Ok (fold_left observe records st).
Proof.
  revert st. induction records as [|r records IH]; intros st; simpl; auto.
Qed.

Lemma analyze_log_iter records :
  analyze_log (iter records) = Ok (aggregated records).
Proof. apply consume_iter. Qed.

Lemma aggregated_snoc records r :
  aggregated (records ++ [r]) = observe (aggregated records) r.
Proof. unfold aggregated. now rewrite fold_left_app. Qed.

Lemma py_sum_snoc (xs : list R) (t : R) :
  py_sum (xs ++ [t]) = add (py_sum xs) t.
Proof. unfold py_sum. now rewrite fold_left_app. Qed.

Lemma observe_urls st url t :
  snd (observe st (url, t))
  = dict_set url
      match dict_get url (snd st) with
      | Some a => {| count := count a + 1; request_times := request_times a ++ [t] |}
      | None => {| count := 1; request_times := [t] |}
      end (snd st).
Proof. destruct st as [tot urls]. simpl. now destruct (dict_get url urls). Qed.

Lemma observe_totals st url t :
  fst (observe st (url, t))
  = {| total_requests := total_requests (fst st) + 1;
       total_time := add (total_time (fst st)) t |}.
Proof. destruct st as [tot urls]. simpl. now destruct (dict_get url urls). Qed.

Lemma observe_invariant (P : aggregate R -> Prop) st url t :
  (forall a, P a -> P {| count := count a + 1; request_times := request_times a ++ [t] |}) ->
  P {| count := 1; request_times := [t] |} ->
  Forall P (values (snd st)) -> Forall P (values (snd (observe st (url, t)))).
Proof.
  intros Hstep Hnew Hst. rewrite observe_urls.
  apply Forall_values_set; [|assumption].
  destruct (dict_get url (snd st)) as [a|] eqn:E; [|assumption].
  apply Hstep. rewrite Forall_forall in Hst. apply Hst.
  now apply dict_get_In_values with (k := url).
Qed.

Lemma aggregated_invariant (P : aggregate R -> Prop) records :
  (forall a t, P a -> P {| count := count a + 1; request_times := request_times a ++ [t] |}) ->
  (forall t, P {| count := 1; request_times := [t] |}) ->
  Forall P (values (snd (aggregated records))).
Proof.
  intros Hstep Hnew.
  induction records as [|[url t] records IH] using rev_ind.
  - constructor.
  - rewrite aggregated_snoc. apply observe_invariant; auto.
Qed.

Lemma count_is_length_step (a : aggregate R) (t : R) :
  count_is_length a ->
  count_is_length {| count := count a + 1; request_times := request_times a ++ [t] |}.
Proof.
  unfold count_is_length. simpl. intros ->. rewrite length_app. simpl. lia.
Qed.

End AggregatorFacts.

(** ** The extractor as the input of the Aggregator *)

(** C8.  With PEP 479 in force (every Python from 3.7 on) the extractor
    never ends with a normal return: when the file is exhausted,
    [next(file)] raises [StopIteration] inside the generator body and
    the consumer receives a [RuntimeError]; otherwise the generator has
    already ended with the [IndexError] or [ValueError] of a line.  So
    [analyze_log] raises on every file instead of returning; on the
    empty file and on a file of one line of the documented format it
    raises [RuntimeError]. *)
Theorem extractor_end_of_source {R : Type} `{PyNumber R}
  (float : string -> option R) (file : list string) :
  (ending (log_parser true float file) = Some RuntimeError
   \/ ending (log_parser true float file) = Some IndexError
   \/ ending (log_parser true float file) = Some ValueError)
  /\ (exists e : exn, analyze_log (log_parser true float file) = Raised e)
  /\ log_parser true float [] = Raise RuntimeError
  /\ log_parser true float_of_decimal [sample_line]
     = Yield ("/api/v2/banner/25019354", 0.39%float) (Raise RuntimeError)
  /\ analyze_log (log_parser true (float_of_decimal (R := PrimFloat.float)) [])
     = Raised RuntimeError
  /\ analyze_log (log_parser true (float_of_decimal (R := PrimFloat.float)) [sample_line])
     = Raised RuntimeError.
Proof.
  assert (Hend : ending (log_parser true float file) = Some RuntimeError
                 \/ ending (log_parser true float file) = Some IndexError
                 \/ ending (log_parser true float file) = Some ValueError).
  { induction file as [|line file IH]; simpl; [now left|].
    destruct (parse_row float line) as [r|e] eqn:E; simpl; [exact IH|].
    destruct (parse_row_raises _ _ E) as [-> | ->]; simpl; auto. }
  split; [exact Hend|]. split.
  - unfold analyze_log. rewrite consume_generator.
    destruct Hend as [-> |[-> | ->]]; eauto.
  - repeat split; vm_compute; reflexivity.
Qed.

(** C5.  After every step of the Aggregator, that is after any
    sequence of records, every entry of the map has [count] equal to
    the length of its sample list.  The step on a record of a resource
    that is absent creates the entry with count 1 and the one sample;
    on a resource that is present it adds 1 to the count and appends
    the sample; the other entries are not changed. *)
Theorem count_equals_number_of_samples {R : Type} `{PyNumber R}
  (records : list (string * R)) (url : string) (t : R) :
  let urls := snd (aggregated records) in
  let urls' := snd (observe (aggregated records) (url, t)) in
  Forall count_is_length (values urls)
  /\ (dict_get url urls = None ->
      dict_get url urls' = Some {| count := 1; request_times := [t] |})
  /\ (forall a, dict_get url urls = Some a ->
      dict_get url urls'
      = Some {| count := count a + 1; request_times := request_times a ++ [t] |})
  /\ (forall k, k <> url -> dict_get k urls' = dict_get k urls)
  /\ Forall count_is_length (values urls').
Proof.
  intros urls urls'.
  assert (Hinv : forall rs : list (string * R),
             Forall count_is_length (values (snd (aggregated rs)))).
  { intros rs. apply aggregated_invariant.
    - intros a t' Ha. now apply count_is_length_step.
    - intros t'. reflexivity. }
  subst urls urls'. rewrite observe_urls.
  split; [apply Hinv|].
  split; [intros ->; apply dict_get_set_same|].
  split; [intros a ->; apply dict_get_set_same|].
  split; [intros k Hk; now apply dict_get_set_other|].
  rewrite <- observe_urls, <- aggregated_snoc. apply Hinv.
Qed.

(** ** Exact arithmetic *)

Lemma ltb_Qc_true (x y : Qc) : ltb x y = true <-> (x < y)%Qc.
Proof.
  rewrite Qclt_alt. simpl. destruct (x ?= y)%Qc; split; congruence.
Qed.

Lemma ltb_Qc_false (x y : Qc) : ltb x y = false <-> (y <= x)%Qc.
Proof.
  split.
  - intros Hf. apply Qcnot_lt_le. intros Hlt.
    apply ltb_Qc_true in Hlt. congruence.
  - intros Hle. destruct (ltb x y) eqn:E; [|reflexivity].
    apply ltb_Qc_true in E. now apply Qclt_not_le in E.
Qed.

#[export] Instance ExactArith_Qc : ExactArith Qc.
Proof.
  split.
  - exact Qcplus_0_l.
  - exact Qcplus_comm.
  - exact Qcplus_assoc.
  - intros x. apply ltb_Qc_false. apply Qcle_refl.
  - intros x y Hlt. apply ltb_Qc_false. apply Qclt_le_weak.
    now apply ltb_Qc_true.
  - unfold leR. intros x y z Hxy Hyz. apply ltb_Qc_false.
    apply ltb_Qc_false in Hxy, Hyz. now apply Qcle_trans with y.
  - unfold leR. intros x y Hxy Hyx.
    apply ltb_Qc_false in Hxy, Hyx. now apply Qcle_antisym.
Defined.

Section Conservation.

Context {R : Type} `{ExactArith R}.

Lemma add_0_r (x : R) : add x (of_int 0) = x.
Proof. rewrite add_comm. apply add_0_l. Qed.

Lemma sum_of_counts_observe (st : totals R * dict (aggregate R))
  (url : string) (t : R) :
  sum_of_counts (snd (observe st (url, t))) = (sum_of_counts (snd st) + 1)%Z.
Proof.
  rewrite observe_urls. unfold sum_of_counts.
  apply fold_right_set with (weight := @count R); intros; try lia.
  now destruct (dict_get url (snd st)).
Qed.

Lemma sum_of_time_sums_observe (st : totals R * dict (aggregate R))
  (url : string) (t : R) :
  sum_of_time_sums (snd (observe st (url, t)))
  = add (sum_of_time_sums (snd st)) t.
Proof.
  rewrite observe_urls. unfold sum_of_time_sums, sumR.
  apply fold_right_set
    with (weight := fun a : aggregate R => py_sum (request_times a)).
  - apply add_0_r.
  - apply add_comm.
  - apply add_assoc.
  - destruct (dict_get url (snd st)); simpl.
    + apply py_sum_snoc.
    + unfold py_sum. simpl. apply add_0_l.
Qed.

Lemma aggregated_conserves (records : list (string * R)) :
  sum_of_counts (snd (aggregated records))
  = total_requests (fst (aggregated records))
  /\ sum_of_time_sums (snd (aggregated records))
     = total_time (fst (aggregated records)).
Proof.
  induction records as [|[url t] records [IHc IHt]] using rev_ind.
  - split; reflexivity.
  - rewrite aggregated_snoc, sum_of_counts_observe, sum_of_time_sums_observe,
      observe_totals. simpl. now rewrite IHc, IHt.
Qed.

End Conservation.

(** C4.  Over exact arithmetic, for every finite sequence of records
    the Aggregator returns, and in what it returns the sum of [count]
    over the entries of the map is [total_requests], and the sum over
    the entries of the sums of their samples is [total_time]. *)
Theorem count_and_time_conservation {R : Type} `{ExactArith R}
  (records : list (string * R)) :
  exists (totals : totals R) (urls : dict (aggregate R)),
    analyze_log (iter records) = Ok (totals, urls)
    /\ sum_of_counts urls = total_requests totals
    /\ sum_of_time_sums urls = total_time totals.
Proof.
  exists (fst (aggregated records)), (snd (aggregated records)).
  split.
  - rewrite analyze_log_iter. now destruct (aggregated records).
  - apply aggregated_conserves.
Qed.

Lemma count_and_time_conservation_witness :
  exists (totals : totals Qc) (urls : dict (aggregate Qc)),
    analyze_log (iter [("/a", dec 1 10); ("/b", dec 2 10); ("/a", dec 3 10)])
    = Ok (totals, urls)
    /\ sum_of_counts urls = total_requests totals
    /\ sum_of_time_sums urls = total_time totals.
Proof.
  exact (count_and_time_conservation (R := Qc)
           [("/a", dec 1 10); ("/b", dec 2 10); ("/a", dec 3 10)]).
Defined.

(** * Order of occurrence *)

Section Precedes.

Variable A : Type.
Implicit Types (x y : A) (l : list A).

Lemma precedes_In x y l : precedes x y l -> In x l /\ In y l.
Proof.
  induction 1 as [l Hy|a l _ [IHx IHy]]; simpl; auto.
Qed.

Lemma precedes_app_l x y l1 l2 : precedes x y l1 -> precedes x y (l1 ++ l2).
Proof.
  induction 1 as [l Hy|a l _ IH]; simpl.
  - apply precedes_here. apply in_or_app. now left.
  - now apply precedes_later.
Qed.

Lemma precedes_app_r x y l1 l2 : precedes x y l2 -> precedes x y (l1 ++ l2).
Proof.
  intros Hp. induction l1 as [|a l1 IH]; simpl; [assumption|].
  now apply precedes_later.
Qed.

Lemma precedes_cross x y l1 l2 : In x l1 -> In y l2 -> precedes x y (l1 ++ l2).
Proof.
  intros Hx Hy. induction l1 as [|a l1 IH]; simpl; [contradiction|].
  destruct Hx as [->|Hx].
  - apply precedes_here. apply in_or_app. now right.
  - apply precedes_later. now apply IH.
Qed.

Lemma precedes_app_inv x y l1 l2 :
  precedes x y (l1 ++ l2) ->
  precedes x y l1 \/ precedes x y l2 \/ (In x l1 /\ In y l2).
Proof.
  induction l1 as [|a l1 IH]; simpl; intros Hp; [auto|].
  inversion Hp as [l Hy Hl|a' l Hp' Hl]; subst.
  - apply in_app_or in Hy. destruct Hy as [Hy|Hy].
    + left. now apply precedes_here.
    + right. right. split; [now left|assumption].
  - destruct (IH Hp') as [H1|[H2|[Hx Hy]]].
    + left. now apply precedes_later.
    + now right; left.
    + right. right. split; [now right|assumption].
Qed.

Lemma precedes_firstn x y n l : precedes x y (firstn n l) -> precedes x y l.
Proof.
  intros Hp. rewrite <- (firstn_skipn n l). now apply precedes_app_l.
Qed.

End Precedes.

Lemma precedes_map {A B : Type} (f : A -> B) (x y : A) (l : list A) :
  precedes x y l -> precedes (f x) (f y) (map f l).
Proof.
  induction 1 as [l Hy|a l _ IH]; simpl.
  - apply precedes_here. now apply in_map.
  - now apply precedes_later.
Qed.

(** * [sorted] *)

Section SortedFacts.

Variable A : Type.
Variable before : A -> A -> bool.

Lemma insort_split (x : A) (l : list A) :
  exists l1 l2,
    l = l1 ++ l2
    /\ insort before x l = l1 ++ x :: l2
    /\ Forall (fun y => before y x = true) l1.
Proof.
  induction l as [|y l (l1 & l2 & Hl & Hi & Hb)]; simpl.
  - exists [], []. repeat split. constructor.
  - destruct (before y x) eqn:E.
    + exists (y :: l1), l2. simpl. rewrite <- Hl, Hi.
      repeat split. now constructor.
    + exists [], (y :: l). repeat split. constructor.
Qed.

Lemma insort_perm (x : A) (l : list A) : Permutation (x :: l) (insort before x l).
Proof.
  destruct (insort_split x l) as (l1 & l2 & -> & -> & _).
  apply Permutation_middle.
Qed.

Lemma py_sorted_perm (l : list A) : Permutation l (py_sorted before l).
Proof.
  induction l as [|x l IH]; simpl; [constructor|].
  etransitivity; [|apply insort_perm]. now constructor.
Qed.

Lemma py_sorted_length (l : list A) : length (py_sorted before l) = length l.
Proof. symmetry. apply Permutation_length, py_sorted_perm. Qed.

(** Stability: an element that ends in front of another one which it
    need not precede was already in front of it. *)
Lemma py_sorted_stable (x y : A) (l : list A) :
  precedes x y (py_sorted before l) -> before x y = false -> precedes x y l.
Proof.
  intros Hp Hxy. induction l as [|a l IH]; simpl in Hp; [assumption|].
  destruct (insort_split a (py_sorted before l)) as (l1 & l2 & Hl & Hi & Hb).
  rewrite Hi in Hp.
  assert (Hin : forall z, In z (l1 ++ l2) -> In z l).
  { intros z Hz. rewrite <- Hl in Hz.
    eapply Permutation_in; [symmetry; apply py_sorted_perm|exact Hz]. }
  assert (Hrest : precedes x y (l1 ++ l2) -> precedes x y (a :: l)).
  { intros H. apply precedes_later, IH. now rewrite Hl. }
  apply precedes_app_inv in Hp. destruct Hp as [H1|[H2|[Hx Hy]]].
  - apply Hrest. now apply precedes_app_l.
  - inversion H2 as [l' Hy|a' l' Hp']; subst.
    + apply precedes_here. apply Hin, in_or_app. now right.
    + apply Hrest. now apply precedes_app_r.
  - destruct Hy as [<-|Hy].
    + rewrite Forall_forall in Hb. rewrite (Hb _ Hx) in Hxy. discriminate.
    + apply Hrest. now apply precedes_cross.
Qed.

Hypothesis before_asym : forall x y, before x y = true -> before y x = false.
Hypothesis in_order_trans :
  forall x y z,
    in_order before x y -> in_order before y z -> in_order before x z.

Lemma insort_sorted (x : A) (l : list A) :
  StronglySorted (in_order before) l -> StronglySorted (in_order before) (insort before x l).
Proof.
  induction 1 as [|y l Hl IH Hy]; simpl.
  - constructor; constructor.
  - destruct (before y x) eqn:E.
    + constructor; [assumption|].
      rewrite Forall_forall in Hy |- *. intros z Hz.
      apply (Permutation_in z (Permutation_sym (insort_perm x l))) in Hz.
      destruct Hz as [<-|Hz]; [now apply before_asym|now apply Hy].
    + constructor; [now constructor|].
      constructor; [exact E|].
      rewrite Forall_forall in Hy |- *. intros z Hz.
      apply in_order_trans with y; [exact E|now apply Hy].
Qed.

Lemma py_sorted_sorted (l : list A) : StronglySorted (in_order before) (py_sorted before l).
Proof.
  induction l as [|x l IH]; simpl; [constructor|now apply insort_sorted].
Qed.

End SortedFacts.

Lemma StronglySorted_app_inv {A : Type} (ord : A -> A -> Prop) (l1 l2 : list A) :
  StronglySorted ord (l1 ++ l2) ->
  StronglySorted ord l1
  /\ forall x y, In x l1 -> In y l2 -> ord x y.
Proof.
  induction l1 as [|a l1 IH]; simpl; intros Hs.
  - split; [constructor|contradiction].
  - apply StronglySorted_inv in Hs. destruct Hs as [Hs Ha].
    destruct (IH Hs) as [IH1 IH2]. rewrite Forall_forall in Ha. split.
    + constructor; [assumption|].
      rewrite Forall_forall. intros z Hz. apply Ha, in_or_app. now left.
    + intros x y [<-|Hx] Hy; [|now apply IH2].
      apply Ha, in_or_app. now right.
Qed.

(** * The Rank Selector *)

Section RankFacts.

Context {R : Type}.
Implicit Types (report : list (ReportRow.t R)) (x y : ReportRow.t R).

Lemma by_count_desc_asym x y :
  by_count_desc x y = true -> by_count_desc y x = false.
Proof. unfold by_count_desc. lia. Qed.

Lemma by_count_desc_trans x y z :
  in_order (@by_count_desc R) x y -> in_order (@by_count_desc R) y z ->
  in_order (@by_count_desc R) x z.
Proof. unfold in_order, by_count_desc. lia. Qed.

Lemma sorted_by_count report :
  StronglySorted (fun x y => (ReportRow.count y <= ReportRow.count x)%Z)
    (py_sorted (@by_count_desc R) report).
Proof.
  assert (Hs : StronglySorted (in_order (@by_count_desc R))
                 (py_sorted (@by_count_desc R) report)).
  { apply py_sorted_sorted;
      [apply by_count_desc_asym | apply by_count_desc_trans]. }
  induction Hs as [|a l _ IH Ha]; constructor; [exact IH|].
  eapply Forall_impl; [|exact Ha].
  unfold in_order, by_count_desc. intros b Hb. lia.
Qed.

Lemma slice_to_firstn (n : Z) report :
  exists k, slice_to n report = firstn k report
            /\ ((0 <= n)%Z -> k = Z.to_nat n).
Proof.
  unfold slice_to. destruct (n <? 0)%Z eqn:E.
  - eexists. split; [reflexivity|]. lia.
  - eexists. split; [reflexivity|]. reflexivity.
Qed.

End RankFacts.

(** C3.  For every sequence of rows and every positive report size N,
    the Rank Selector returns a sequence sorted by count, greatest
    first, of at most N rows, all taken from the input (with the rows
    left out they make up the input again, so nothing is added); a row
    whose count is strictly greater than the count of a returned row is
    returned too; and when the input has fewer than N rows, all of them
    are returned. *)
Theorem rank_top_n {R : Type} (N : Z) (report : list (ReportRow.t R)) :
  (0 < N)%Z ->
  StronglySorted (fun x y => (ReportRow.count y <= ReportRow.count x)%Z) (rank N report)
  /\ (Z.of_nat (length (rank N report)) <= N)%Z
  /\ (exists rest, Permutation (rank N report ++ rest) report)
  /\ (forall x y, In x report -> In y (rank N report) ->
                  (ReportRow.count y < ReportRow.count x)%Z -> In x (rank N report))
  /\ ((Z.of_nat (length report) < N)%Z -> Permutation (rank N report) report).
Proof.
  intros HN. unfold rank.
  destruct (slice_to_firstn N (py_sorted (@by_count_desc R) report))
    as (k & -> & Hk).
  specialize (Hk ltac:(lia)).
  pose proof (sorted_by_count report) as Hs.
  pose proof (py_sorted_perm (@by_count_desc R) report) as Hp.
  rewrite <- (firstn_skipn k (py_sorted (@by_count_desc R) report)) in Hs, Hp.
  apply StronglySorted_app_inv in Hs. destruct Hs as [Hs Hcross].
  split; [exact Hs|]. split.
  - pose proof (firstn_le_length k (py_sorted (@by_count_desc R) report)). lia.
  - split; [eexists; symmetry; exact Hp|]. split.
    + intros x y Hx Hy Hlt.
      apply (Permutation_in x Hp) in Hx. apply in_app_or in Hx.
      destruct Hx as [Hx|Hx]; [assumption|].
      specialize (Hcross y x Hy Hx). simpl in Hcross. lia.
    + intros Hlen. rewrite firstn_all2.
      * symmetry. apply py_sorted_perm.
      * rewrite py_sorted_length. lia.
Qed.

Lemma rank_top_n_witness :
  (0 < 1)%Z
  /\ (Z.of_nat (length (rank 1 sample_report)) <= 1)%Z
  /\ (forall x y, In x sample_report -> In y (rank 1 sample_report) ->
                  (ReportRow.count y < ReportRow.count x)%Z -> In x (rank 1 sample_report)).
Proof.
  assert (H : (0 < 1)%Z) by lia.
  split; [exact H|].
  destruct (@rank_top_n _ 1%Z sample_report H) as (_ & Hlen & _ & Htop & _).
  split; [exact Hlen|exact Htop].
Defined.

(** * The Statistics Calculator *)


Section StatisticsFacts.

Context {R : Type} `{ExactArith R}.
Implicit Types (x y m : R) (xs data s : list R).







Lemma median_unfold data :
  data <> [] ->
  let s := py_sorted ltb data in
  let n := length s in
  median data =
  if Nat.eqb (n mod 2) 1
  then match nth_error s (n / 2) with
       | Some x => Ok x
       | None => Raised IndexError
       end
  else match nth_error s (n / 2 - 1), nth_error s (n / 2) with
       | Some x, Some y => Ok (div (add x y) (of_int 2))
       | _, _ => Raised IndexError
       end.
Proof.
  intros Hd s n. unfold median. fold s. fold n.
  destruct n eqn:En; [|reflexivity].
  subst n s. rewrite py_sorted_length in En.
  destruct data; [congruence|discriminate].
Qed.



End StatisticsFacts.



(** * Ties in the ranking *)

Section IndexOf.

Implicit Types (k : string) (l : list string).

Lemma index_of_lt k l : In k l -> (index_of k l < length l)%nat.
Proof.
  induction l as [|k' l IH]; simpl; [contradiction|].
  destruct (String.eqb_spec k' k) as [->|Hk]; [lia|].
  intros [Hk'|Hin]; [congruence|]. specialize (IH Hin). lia.
Qed.

Lemma index_of_app_in k l l' : In k l -> index_of k (l ++ l') = index_of k l.
Proof.
  induction l as [|k' l IH]; simpl; [contradiction|].
  destruct (String.eqb_spec k' k) as [->|Hk]; [reflexivity|].
  intros [Hk'|Hin]; [congruence|]. now rewrite IH.
Qed.

Lemma index_of_app_notin k l l' :
  ~ In k l -> index_of k (l ++ l') = (length l + index_of k l')%nat.
Proof.
  induction l as [|k' l IH]; simpl; [reflexivity|].
  intros Hn. destruct (String.eqb_spec k' k) as [->|Hk].
  - exfalso. apply Hn. now left.
  - rewrite IH; [reflexivity|]. intros Hin. apply Hn. now right.
Qed.

End IndexOf.

Section Ties.

Context {R : Type} `{PyNumber R}.
Implicit Types (records : list (string * R)) (a : aggregate R).

Lemma keys_observe (st : totals R * dict (aggregate R)) (url : string) (t : R) :
  keys (snd (observe st (url, t)))
  = match dict_get url (snd st) with
    | Some _ => keys (snd st)
    | None => keys (snd st) ++ [url]
    end.
Proof.
  rewrite observe_urls. destruct (dict_get url (snd st)) as [a|] eqn:E.
  - now apply keys_set_present with (v := a).
  - rewrite dict_set_absent by assumption. unfold keys. now rewrite map_app.
Qed.

(** The keys of the map are the resources seen so far, in the order in
    which each was first seen. *)
Lemma keys_first_seen records :
  (forall k, In k (keys (snd (aggregated records))) <-> In k (map fst records))
  /\ forall k1 k2,
      precedes k1 k2 (keys (snd (aggregated records))) ->
      (index_of k1 (map fst records) < index_of k2 (map fst records))%nat.
Proof.
  induction records as [|[url t] records [IHin IHord]] using rev_ind.
  - split; [reflexivity|]. intros k1 k2 Hp. inversion Hp.
  - rewrite aggregated_snoc, keys_observe, map_app. simpl.
    destruct (dict_get url (snd (aggregated records))) as [a|] eqn:E.
    + assert (Hurl : In url (map fst records)).
      { apply IHin. destruct (in_dec string_dec url (keys (snd (aggregated records))))
          as [Hi|Hn]; [exact Hi|].
        apply dict_get_None in Hn. congruence. }
      split.
      * intros k. rewrite IHin, in_app_iff. simpl.
        split; [auto|]. intros [Hk|[<-|[]]]; assumption.
      * intros k1 k2 Hp.
        destruct (precedes_In Hp) as [H1 H2].
        apply IHin in H1, H2.
        rewrite !index_of_app_in by assumption. now apply IHord.
    + apply dict_get_None in E.
      assert (Hurl : ~ In url (map fst records)) by (now rewrite <- IHin).
      split.
      * intros k. rewrite !in_app_iff, IHin. reflexivity.
      * intros k1 k2 Hp. apply precedes_app_inv in Hp.
        destruct Hp as [Hp|[Hp|[H1 H2]]].
        -- destruct (precedes_In Hp) as [H1 H2].
           apply IHin in H1, H2.
           rewrite !index_of_app_in by assumption. now apply IHord.
        -- inversion Hp as [l Hy|a l Hp']; subst;
             [contradiction|inversion Hp'].
        -- destruct H2 as [<-|[]]. apply IHin in H1.
           rewrite index_of_app_in by assumption.
           rewrite index_of_app_notin by assumption.
           pose proof (index_of_lt _ _ H1). lia.
Qed.

Lemma median_ok (data : list R) : data <> [] -> exists m, median data = Ok m.
Proof.
  intros Hd. rewrite (median_unfold Hd).
  set (s := py_sorted ltb data).
  assert (Hn : (0 < length s)%nat).
  { subst s. rewrite py_sorted_length. destruct data; [congruence|simpl; lia]. }
  assert (Hhalf : (length s / 2 < length s)%nat) by (apply Nat.div_lt; lia).
  destruct data as [|d data]; [congruence|].
  destruct (Nat.eqb (length s mod 2) 1).
  - rewrite (nth_error_nth' s d Hhalf). eauto.
  - rewrite (nth_error_nth' s d Hhalf).
    rewrite (nth_error_nth' s d (n := length s / 2 - 1)) by lia. eauto.
Qed.

Lemma url_stats_row (totals : totals R) (url : string) a :
  request_times a <> [] ->
  exists row, url_stats totals (url, a) = Ok row
              /\ ReportRow.url row = url /\ ReportRow.count row = count a.
Proof.
  intros Hne. destruct (median_ok Hne) as [m Hm].
  unfold url_stats, true_div. rewrite Hm.
  destruct (request_times a) as [|x xs] eqn:E; [congruence|].
  simpl. eexists. repeat split.
Qed.

Lemma mapM_url_stats (totals : totals R) (urls : dict (aggregate R)) :
  Forall (fun a => request_times a <> []) (values urls) ->
  exists rows, mapM (url_stats totals) urls = Ok rows
               /\ map (@ReportRow.url R) rows = keys urls
               /\ map (@ReportRow.count R) rows = map (@count R) (values urls).
Proof.
  induction urls as [|[url a] urls IH]; intros Hall.
  - exists []. repeat split.
  - simpl in Hall. inversion Hall as [|? ? Ha Hrest]; subst.
    destruct (url_stats_row totals url a Ha) as (row & Hrow & Hu & Hc).
    destruct (IH Hrest) as (rows & Hrows & Hus & Hcs).
    exists (row :: rows). cbn [mapM]. rewrite Hrow, Hrows. simpl.
    now rewrite Hu, Hc, Hus, Hcs.
Qed.

Lemma aggregated_nonempty records :
  Forall (fun a => request_times a <> []) (values (snd (aggregated records))).
Proof.
  apply aggregated_invariant.
  - intros a t _. simpl. intros E. now apply app_eq_nil in E as [_ E].
  - intros t. discriminate.
Qed.

End Ties.

(** C10.  For every finite sequence of records and every report size
    the pipeline returns a report, and in it, of two rows with the same
    count, the one that stands first is the one whose resource was
    first observed earlier in the input. *)
Theorem ties_keep_first_seen_order {R : Type} `{PyNumber R}
  (records : list (string * R)) (report_size : Z) :
  exists report : list (ReportRow.t R),
    pipeline (iter records) report_size = Ok report
    /\ forall x y : ReportRow.t R,
        precedes x y report ->
        ReportRow.count x = ReportRow.count y ->
        (index_of (ReportRow.url x) (map fst records)
         < index_of (ReportRow.url y) (map fst records))%nat.
Proof.
  destruct (mapM_url_stats (fst (aggregated records)) (snd (aggregated records))
              (aggregated_nonempty records))
    as (rows & Hrows & Hurls & _).
  exists (rank report_size rows). split.
  - unfold pipeline, count_stats. rewrite analyze_log_iter. simpl.
    now rewrite Hrows.
  - intros x y Hp Hc. unfold rank in Hp.
    destruct (slice_to_firstn report_size (py_sorted (@by_count_desc R) rows))
      as (k & Hk & _).
    rewrite Hk in Hp. apply precedes_firstn in Hp.
    apply py_sorted_stable in Hp; [|unfold by_count_desc; lia].
    apply (precedes_map (@ReportRow.url R)) in Hp. rewrite Hurls in Hp.
    now apply keys_first_seen.
Qed.

(** * Further properties of the Aggregator *)

Section AggregatorSpec.

Context {R : Type} `{PyNumber R}.
Implicit Types (records : list (string * R)) (url : string).

Lemma samples_of_snoc url records (u : string) (t : R) :
  samples_of url (records ++ [(u, t)])
  = samples_of url records ++ (if String.eqb u url then [t] else []).
Proof.
  unfold samples_of. rewrite filter_app, map_app. simpl.
  now destruct (String.eqb u url).
Qed.

Lemma keys_NoDup records : NoDup (keys (snd (aggregated records))).
Proof.
  induction records as [|[url t] records IH] using rev_ind.
  - constructor.
  - rewrite aggregated_snoc, keys_observe.
    destruct (dict_get url (snd (aggregated records))) eqn:E; [assumption|].
    apply dict_get_None in E. apply NoDup_app.
    + assumption.
    + constructor; [intros []|constructor].
    + intros k Hk [<-|[]]. contradiction.
Qed.

End AggregatorSpec.

Lemma dict_get_In {V : Type} (k : string) (v : V) (d : dict V) :
  NoDup (keys d) -> In (k, v) d -> dict_get k d = Some v.
Proof.
  induction d as [|[k0 v0] d IH]; simpl; [contradiction|].
  intros Hnd Hin. apply NoDup_cons_iff in Hnd. destruct Hnd as [Hk0 Hnd].
  destruct Hin as [[= -> ->]|Hin].
  - now rewrite String.eqb_refl.
  - destruct (String.eqb_spec k0 k) as [->|Hne]; [|now apply IH].
    exfalso. apply Hk0. change k with (fst (k, v)). now apply in_map.
Qed.

(** The entry of a resource, by induction on the records. *)
Lemma entry_of_resource {R : Type} `{PyNumber R}
  (records : list (string * R)) (url : string) :
  dict_get url (snd (aggregated records))
  = match samples_of url records with
    | [] => None
    | ts => Some {| count := Z.of_nat (length ts); request_times := ts |}
    end.
Proof.
  induction records as [|[u t] records IH] using rev_ind; [reflexivity|].
  rewrite aggregated_snoc, observe_urls, samples_of_snoc.
  destruct (String.eqb_spec u url) as [->|Hne].
  - rewrite dict_get_set_same, IH.
    destruct (samples_of url records) as [|x ts]; [reflexivity|].
    simpl. f_equal. f_equal. rewrite length_app. simpl. lia.
  - rewrite dict_get_set_other by congruence.
    now rewrite IH, app_nil_r.
Qed.

(** X1.  After any sequence of records, the entry of a resource holds
    exactly the samples of that resource in arrival order, and their
    number as count; a resource that did not occur has no entry. *)
Theorem aggregated_entry {R : Type} `{PyNumber R}
  (records : list (string * R)) (url : string) :
  dict_get url (snd (aggregated records))
  = match samples_of url records with
    | [] => None
    | ts => Some {| count := Z.of_nat (length ts); request_times := ts |}
    end.
Proof. apply entry_of_resource. Qed.

(** The totals, by induction on the records. *)
Lemma totals_of_records {R : Type} `{PyNumber R}
  (records : list (string * R)) :
  total_requests (fst (aggregated records)) = Z.of_nat (length records)
  /\ total_time (fst (aggregated records)) = py_sum (map snd records).
Proof.
  induction records as [|[u t] records [IHn IHt]] using rev_ind.
  - split; reflexivity.
  - rewrite aggregated_snoc, observe_totals. cbn [total_requests total_time].
    rewrite IHn, IHt, length_app, map_app.
    change (map snd [(u, t)]) with [t]. rewrite py_sum_snoc.
    split; [simpl; lia|reflexivity].
Qed.

(** X2.  The totals after any sequence of records, on every number
    type: the request total is the number of records, and the time
    total is the left-to-right sum of all samples. *)
Theorem aggregated_totals {R : Type} `{PyNumber R}
  (records : list (string * R)) :
  total_requests (fst (aggregated records)) = Z.of_nat (length records)
  /\ total_time (fst (aggregated records)) = py_sum (map snd records).
Proof.
  destruct (totals_of_records records) as [Hn Ht]. split; [exact Hn|exact Ht].
Qed.

(** The keys and the distinct resources of the input. *)
Lemma keys_of_records {R : Type} `{PyNumber R}
  (records : list (string * R)) :
  NoDup (keys (snd (aggregated records)))
  /\ (forall k, In k (keys (snd (aggregated records))) <-> In k (map fst records))
  /\ length (snd (aggregated records))
     = length (nodup string_dec (map fst records)).
Proof.
  pose proof (keys_NoDup records) as Hnd.
  destruct (keys_first_seen records) as [Hin _].
  split; [exact Hnd|]. split; [exact Hin|].
  rewrite <- (length_map fst (snd (aggregated records))).
  apply Permutation_length, NoDup_Permutation.
  - exact Hnd.
  - apply NoDup_nodup.
  - intros k. rewrite nodup_In. apply Hin.
Qed.

(** X3.  The map has exactly one entry for each distinct resource of
    the input: its keys are free of duplicates and are the resources
    that occur in the records. *)
Theorem aggregated_keys {R : Type} `{PyNumber R}
  (records : list (string * R)) :
  NoDup (keys (snd (aggregated records)))
  /\ (forall k, In k (keys (snd (aggregated records))) <-> In k (map fst records))
  /\ length (snd (aggregated records))
     = length (nodup string_dec (map fst records)).
Proof.
  destruct (keys_of_records records) as (Hnd & Hin & Hlen).
  split; [exact Hnd|]. split; [exact Hin|exact Hlen].
Qed.

(** X4.  [analyze_log] on any generator: it returns exactly when the
    generator ends with a normal return, and then with the aggregate of
    the records the generator yielded; when the generator ends with an
    exception, [analyze_log] raises that exception and the records
    consumed so far are lost. *)
Theorem analyze_log_generator {R : Type} `{PyNumber R}
  (parser : generator (string * R)) :
  analyze_log parser
  = match ending parser with
    | None => Ok (aggregated (yielded parser))
    | Some e => Raised e
    end.
Proof. unfold analyze_log, aggregated. apply consume_generator. Qed.

(** * Further properties of [count_stats] *)

Lemma mapM_In {A B : Type} (f : A -> result B) (l : list A) (rows : list B) (b : B) :
  mapM f l = Ok rows -> In b rows -> exists a, In a l /\ f a = Ok b.
Proof.
  revert rows. induction l as [|a l IH]; intros rows; cbn [mapM].
  - intros [= <-] [].
  - destruct (f a) as [b0|e] eqn:Ea; [|discriminate].
    destruct (mapM f l) as [bs|e]; [|discriminate].
    cbn [bind]. intros [= <-] [<-|Hin].
    + exists a. split; [now left|assumption].
    + destruct (IH bs eq_refl Hin) as (a' & Ha' & Hf).
      exists a'. split; [now right|assumption].
Qed.

Section CountStatsFacts.

Context {R : Type} `{PyNumber R}.
Implicit Types (totals : totals R) (urls : dict (aggregate R)) (a : aggregate R).

Lemma url_stats_empty totals (url : string) a :
  request_times a = [] -> url_stats totals (url, a) = Raised ZeroDivisionError.
Proof. intros E. unfold url_stats, true_div. now rewrite E. Qed.

Lemma url_stats_inv totals (url : string) a (row : ReportRow.t R) :
  url_stats totals (url, a) = Ok row ->
  ReportRow.url row = url
  /\ ReportRow.count row = count a
  /\ ReportRow.time_sum row = py_sum (request_times a)
  /\ ReportRow.time_avg row
     = div (py_sum (request_times a)) (of_int (Z.of_nat (length (request_times a))))
  /\ py_max (request_times a) = Ok (ReportRow.time_max row)
  /\ median (request_times a) = Ok (ReportRow.time_med row)
  /\ ReportRow.count_perc row
     = div (of_int (count a * total_requests totals)) (of_int 100)
  /\ ReportRow.time_perc row
     = div (mul (py_sum (request_times a)) (total_time totals)) (of_int 100).
Proof.
  unfold url_stats, true_div.
  destruct (Z.of_nat (length (request_times a)) =? 0)%Z; [discriminate|].
  cbn [bind].
  destruct (py_max (request_times a)) as [time_max|e]; [|discriminate].
  cbn [bind].
  destruct (median (request_times a)) as [time_med|e]; [|discriminate].
  cbn [bind]. intros [= <-]. simpl. repeat split.
Qed.

Lemma mapM_url_stats_empty totals urls :
  Exists (fun a => request_times a = []) (values urls) ->
  mapM (url_stats totals) urls = Raised ZeroDivisionError.
Proof.
  induction urls as [|[url a] urls IH]; intros Hex; [inversion Hex|].
  cbn [mapM]. destruct (request_times a) as [|x xs] eqn:Ea.
  - now rewrite (url_stats_empty totals url a Ea).
  - destruct (url_stats_row totals url a) as (row & -> & _);
      [rewrite Ea; discriminate|].
    cbn [bind]. rewrite IH; [reflexivity|].
    simpl in Hex. inversion Hex as [? ? Hhd|? ? Htl]; subst; [congruence|assumption].
Qed.

Lemma rank_In (N : Z) (rows : list (ReportRow.t R)) (row : ReportRow.t R) :
  In row (rank N rows) -> In row rows.
Proof.
  unfold rank.
  destruct (slice_to_firstn N (py_sorted (@by_count_desc R) rows)) as (k & -> & _).
  intros Hin.
  apply (Permutation_in row (Permutation_sym (py_sorted_perm (@by_count_desc R) rows))).
  rewrite <- (firstn_skipn k). apply in_or_app. now left.
Qed.

End CountStatsFacts.

(** X5.  [count_stats] fails exactly on a map with an entry that has no
    samples, and then with [ZeroDivisionError], raised by
    [time_sum / len(request_times)]; on every other map it returns a
    report, for every report size and every number type. *)
Theorem count_stats_failure {R : Type} `{PyNumber R}
  (totals : totals R) (urls : dict (aggregate R)) (report_size : Z) :
  (Exists (fun a => request_times a = []) (values urls) ->
   count_stats totals urls report_size = Raised ZeroDivisionError)
  /\ (Forall (fun a => request_times a <> []) (values urls) ->
      exists report, count_stats totals urls report_size = Ok report).
Proof.
  split.
  - intros Hex. unfold count_stats.
    now rewrite (mapM_url_stats_empty totals urls Hex).
  - intros Hall. destruct (mapM_url_stats totals urls Hall) as (rows & Hrows & _).
    unfold count_stats. rewrite Hrows. simpl. eauto.
Qed.

(** The slice of the sorted rows, for any bound. *)
Lemma rank_prefix {R : Type} (N : Z) (report : list (ReportRow.t R)) :
  exists dropped : list (ReportRow.t R),
    py_sorted (@by_count_desc R) report = rank N report ++ dropped
    /\ (forall x y, In x (rank N report) -> In y dropped ->
                    (ReportRow.count y <= ReportRow.count x)%Z)
    /\ ((0 <= N)%Z ->
        length (rank N report) = Nat.min (Z.to_nat N) (length report))
    /\ ((N < 0)%Z ->
        length dropped = Nat.min (Z.to_nat (- N)) (length report)).
Proof.
  pose proof (sorted_by_count report) as Hs.
  pose proof (py_sorted_length (@by_count_desc R) report) as Hlen.
  unfold rank, slice_to.
  set (sorted := py_sorted (@by_count_desc R) report) in *.
  set (k := if (N <? 0)%Z then Z.to_nat (Z.of_nat (length sorted) + N)
            else Z.to_nat N).
  assert (Hk : (if (N <? 0)%Z
                then firstn (Z.to_nat (Z.of_nat (length sorted) + N)) sorted
                else firstn (Z.to_nat N) sorted) = firstn k sorted)
    by (subst k; now destruct (N <? 0)%Z).
  rewrite Hk. exists (skipn k sorted).
  split; [symmetry; apply firstn_skipn|].
  rewrite <- (firstn_skipn k sorted) in Hs.
  apply StronglySorted_app_inv in Hs. destruct Hs as [_ Hcross].
  split; [exact Hcross|].
  rewrite length_firstn, length_skipn. subst k.
  split; intros HN.
  - destruct (N <? 0)%Z eqn:E; lia.
  - destruct (N <? 0)%Z eqn:E; lia.
Qed.

(** X6.  The Rank Selector for any int as report size: the result is a
    prefix of the rows sorted by count, no dropped row has a greater
    count than a kept one; a size [N >= 0] keeps [min(N, len)] rows, so
    size 0 gives the empty report, and a negative size [-k] drops the
    last [min(k, len)] rows. *)
Theorem rank_any_size {R : Type} (N : Z) (report : list (ReportRow.t R)) :
  exists dropped : list (ReportRow.t R),
    py_sorted (@by_count_desc R) report = rank N report ++ dropped
    /\ (forall x y, In x (rank N report) -> In y dropped ->
                    (ReportRow.count y <= ReportRow.count x)%Z)
    /\ ((0 <= N)%Z ->
        length (rank N report) = Nat.min (Z.to_nat N) (length report))
    /\ ((N < 0)%Z ->
        length dropped = Nat.min (Z.to_nat (- N)) (length report)).
Proof.
  destruct (rank_prefix N report) as (dropped & Hs & Hcross & Hkeep & Hdrop).
  exists dropped. split; [exact Hs|]. split; [exact Hcross|].
  split; [exact Hkeep|exact Hdrop].
Qed.

(** X7.  What the pipeline reports for a resource, on every finite
    input and every number type: each row of the report belongs to a
    resource that occurs in the input; its count is the number of
    records of that resource, its time sum, average, maximum and median
    are those of the samples of that resource in arrival order, and the
    two percentages are computed from the number of all records and the
    sum of all samples. *)
Theorem pipeline_rows {R : Type} `{PyNumber R}
  (records : list (string * R)) (report_size : Z) :
  exists report : list (ReportRow.t R),
    pipeline (iter records) report_size = Ok report
    /\ forall row : ReportRow.t R,
        In row report ->
        let ts := samples_of (ReportRow.url row) records in
        ts <> []
        /\ ReportRow.count row = Z.of_nat (length ts)
        /\ ReportRow.time_sum row = py_sum ts
        /\ ReportRow.time_avg row = div (py_sum ts) (of_int (Z.of_nat (length ts)))
        /\ py_max ts = Ok (ReportRow.time_max row)
        /\ median ts = Ok (ReportRow.time_med row)
        /\ ReportRow.count_perc row
           = div (of_int (Z.of_nat (length ts) * Z.of_nat (length records)))
                 (of_int 100)
        /\ ReportRow.time_perc row
           = div (mul (py_sum ts) (py_sum (map snd records))) (of_int 100).
Proof.
  destruct (mapM_url_stats (fst (aggregated records)) (snd (aggregated records))
              (aggregated_nonempty records)) as (rows & Hrows & _).
  exists (rank report_size rows). split.
  - unfold pipeline, count_stats. rewrite analyze_log_iter. simpl.
    now rewrite Hrows.
  - intros row Hin ts. apply rank_In in Hin.
    destruct (@mapM_In _ _ _ _ _ _ Hrows Hin) as ([k a] & Hka & Hrow).
    apply dict_get_In in Hka; [|apply keys_NoDup].
    apply url_stats_inv in Hrow.
    destruct Hrow as (Hu & Hc & Hsum & Havg & Hmax & Hmed & Hcp & Htp).
    destruct (totals_of_records records) as [Hn Ht].
    rewrite Hn in Hcp. rewrite Ht in Htp.
    rewrite entry_of_resource in Hka. subst ts. rewrite Hu.
    destruct (samples_of k records) as [|x xs] eqn:E; [discriminate|].
    injection Hka as <-. simpl in *.
    repeat split; try assumption. discriminate.
Qed.

(** X8.  The shape of the report of the pipeline: no resource has two
    rows, and for a report size [N >= 0] the number of rows is the
    smaller of [N] and the number of distinct resources of the input. *)
Theorem pipeline_report_shape {R : Type} `{PyNumber R}
  (records : list (string * R)) (report_size : Z) :
  exists report : list (ReportRow.t R),
    pipeline (iter records) report_size = Ok report
    /\ NoDup (map (@ReportRow.url R) report)
    /\ ((0 <= report_size)%Z ->
        length report
        = Nat.min (Z.to_nat report_size)
                  (length (nodup string_dec (map fst records)))).
Proof.
  destruct (mapM_url_stats (fst (aggregated records)) (snd (aggregated records))
              (aggregated_nonempty records)) as (rows & Hrows & Hurls & _).
  destruct (keys_of_records records) as (Hnd & _ & Hlen).
  exists (rank report_size rows). split; [|split].
  - unfold pipeline, count_stats. rewrite analyze_log_iter. simpl.
    now rewrite Hrows.
  - unfold rank.
    destruct (slice_to_firstn report_size (py_sorted (@by_count_desc R) rows))
      as (k & -> & _).
    assert (Hs : NoDup (map (@ReportRow.url R) (py_sorted (@by_count_desc R) rows))).
    { apply Permutation_NoDup with (map (@ReportRow.url R) rows).
      - apply Permutation_map, py_sorted_perm.
      - now rewrite Hurls. }
    rewrite <- (firstn_skipn k (py_sorted (@by_count_desc R) rows)), map_app in Hs.
    now apply NoDup_app_remove_r in Hs.
  - intros HN. destruct (rank_prefix report_size rows) as (_ & _ & _ & Hl & _).
    rewrite (Hl HN), <- Hlen. f_equal.
    rewrite <- (length_map (@ReportRow.url R) rows), Hurls. apply length_map.
Qed.

(** * Further properties of the Record Extractor *)

(** X9.  On a file whose lines all parse, the extractor yields exactly
    the records of the lines, in order.  Without PEP 479 it then ends
    with a normal return and [analyze_log] returns the aggregate of
    these records; with PEP 479 it ends with [RuntimeError] and
    [analyze_log] raises it. *)
Theorem log_parser_well_formed {R : Type} `{PyNumber R} (generator_stop : bool)
  (float : string -> option R) (file : list string)
  (records : list (string * R)) :
  Forall2 (fun line r => parse_row float line = Ok r) file records ->
  yielded (log_parser generator_stop float file) = records
  /\ ending (log_parser generator_stop float file)
     = (if generator_stop then Some RuntimeError else None)
  /\ analyze_log (log_parser generator_stop float file)
     = (if generator_stop then Raised RuntimeError else Ok (aggregated records)).
Proof.
  intros Hall.
  destruct (@log_parser_prefix _ generator_stop float file [] records Hall)
    as [Hy He].
  rewrite (app_nil_r file) in Hy, He.
  assert (Hy' : yielded (log_parser generator_stop float file) = records)
    by (rewrite Hy; destruct generator_stop; apply app_nil_r).
  assert (He' : ending (log_parser generator_stop float file)
                = if generator_stop then Some RuntimeError else None)
    by (rewrite He; now destruct generator_stop).
  split; [exact Hy'|]. split; [exact He'|].
  unfold analyze_log. rewrite consume_generator, He', Hy'.
  now destruct generator_stop.
Qed.

Lemma log_parser_well_formed_witness :
  yielded (log_parser false (float_of_decimal (R := float)) [sample_line])
  = [("/api/v2/banner/25019354", 0.39%float)]
  /\ ending (log_parser false (float_of_decimal (R := float)) [sample_line]) = None.
Proof.
  assert (Hall : Forall2
                   (fun line r => parse_row (float_of_decimal (R := float)) line = Ok r)
                   [sample_line] [("/api/v2/banner/25019354", 0.39%float)])
    by (constructor; [exact sample_line_row|constructor]).
  destruct (@log_parser_well_formed _ _ false float_of_decimal _ _ Hall)
    as (Hy & He & _).
  split; [exact Hy|exact He].
Defined.

(** X10.  The resource of an extracted record never contains a space:
    a request target with a space in it is cut at the space. *)
Theorem parse_row_resource_no_space {R : Type} (float : string -> option R)
  (line request_url : string) (request_time : R) :
  parse_row float line = Ok (request_url, request_time) ->
  has_char " " request_url = false.
Proof.
  unfold parse_row.
  destruct (nth_error (split " " line) 7) as [u|] eqn:E; [|discriminate].
  destruct (float _); [|discriminate]. intros [= <- _].
  apply nth_error_In in E.
  pose proof (split_fields_free " " line) as Hfree.
  rewrite Forall_forall in Hfree. now apply Hfree.
Qed.

Lemma parse_row_resource_no_space_witness :
  has_char " " "/api/v2/banner/25019354" = false.
Proof.
  exact (@parse_row_resource_no_space _ float_of_decimal sample_line _ _
           sample_line_row).
Defined.

(** * File discovery *)

Example find_newest_example :
  find_newest_log_file reformat_eight_digits "./log"
    ["nginx-access-ui.log-20170630"; "readme.txt";
     "nginx-access-ui.log-20170701.gz"; "nginx-access-ui.log-2017063"]
  = Ok (Some {| path_to_file := "./log";
                file_name := "nginx-access-ui.log-20170701.gz";
                date_in_file_name := "2017.07.01";
                extension := Some ".gz" |}).
Proof. vm_compute. reflexivity. Qed.

Example find_newest_invalid_date :
  find_newest_log_file reformat_eight_digits "./log"
    ["nginx-access-ui.log-20170630"; "nginx-access-ui.log-20171399"]
  = Raised ValueError.
Proof. vm_compute. reflexivity. Qed.

Example build_report_path_example :
  build_report_path "./reports" "2017.07.01" = "./reports/report-2017.07.01.html".
Proof. vm_compute. reflexivity. Qed.

(** ** The order of strings *)

Lemma ascii_compare_refl (c : ascii) : Ascii.compare c c = Eq.
Proof. unfold Ascii.compare. apply N.compare_refl. Qed.

Lemma string_compare_refl (s : string) : String.compare s s = Eq.
Proof.
  induction s as [|c s IH]; simpl; [reflexivity|].
  now rewrite ascii_compare_refl.
Qed.

Lemma string_compare_lt_trans (a b c : string) :
  String.compare a b = Lt -> String.compare b c = Lt -> String.compare a c = Lt.
Proof.
  revert b c. induction a as [|x a IH]; intros [|y b] [|z c]; simpl;
    try congruence.
  destruct (Ascii.compare x y) eqn:Exy; try discriminate;
    destruct (Ascii.compare y z) eqn:Eyz; try discriminate.
  - apply Ascii.compare_eq_iff in Exy, Eyz. subst.
    rewrite ascii_compare_refl. apply IH.
  - apply Ascii.compare_eq_iff in Exy. subst. now rewrite Eyz.
  - apply Ascii.compare_eq_iff in Eyz. subst. now rewrite Exy.
  - unfold Ascii.compare in *. rewrite N.compare_lt_iff in Exy, Eyz.
    assert (Hxz : (N_of_ascii x ?= N_of_ascii z)%N = Lt)
      by (apply N.compare_lt_iff; lia).
    now rewrite Hxz.
Qed.

Lemma string_leb_refl (s : string) : String.leb s s = true.
Proof. unfold String.leb. now rewrite string_compare_refl. Qed.

Lemma string_leb_trans (a b c : string) :
  String.leb a b = true -> String.leb b c = true -> String.leb a c = true.
Proof.
  unfold String.leb.
  destruct (String.compare a b) eqn:Eab; [| |discriminate].
  - apply String.compare_eq_iff in Eab. now subst.
  - destruct (String.compare b c) eqn:Ebc; [| |discriminate].
    + apply String.compare_eq_iff in Ebc. subst. now rewrite Eab.
    + now rewrite (string_compare_lt_trans _ _ _ Eab Ebc).
Qed.

Lemma string_ltb_leb (a b : string) : String.ltb a b = true -> String.leb a b = true.
Proof.
  unfold String.ltb, String.leb. now destruct (String.compare a b).
Qed.

Lemma string_not_ltb_leb (a b : string) :
  String.ltb a b = false -> String.leb b a = true.
Proof.
  unfold String.ltb, String.leb. rewrite (String.compare_antisym b a).
  now destruct (String.compare a b).
Qed.

(** ** The sorted list of matching names *)

Lemma last_In {A : Type} (l : list A) (d : A) : l <> [] -> In (last l d) l.
Proof.
  induction l as [|a l IH]; [congruence|]. intros _.
  destruct l as [|b l]; [now left|].
  right. apply IH. discriminate.
Qed.

Lemma insort_right_perm (x : string) (a : list string) :
  Permutation (x :: a) (insort_right x a).
Proof.
  induction a as [|y a IH]; simpl; [reflexivity|].
  destruct (String.ltb x y); [reflexivity|].
  etransitivity; [apply perm_swap|]. now constructor.
Qed.

Lemma insort_right_sorted (x : string) (a : list string) :
  StronglySorted (fun s t => String.leb s t = true) a ->
  StronglySorted (fun s t => String.leb s t = true) (insort_right x a).
Proof.
  induction 1 as [|y a Ha IH Hy]; simpl.
  - constructor; constructor.
  - rewrite Forall_forall in Hy. destruct (String.ltb x y) eqn:E.
    + constructor; [now constructor; [|apply Forall_forall]|].
      apply string_ltb_leb in E.
      constructor; [exact E|]. apply Forall_forall. intros z Hz.
      apply string_leb_trans with y; auto.
    + constructor; [assumption|]. apply Forall_forall. intros z Hz.
      apply (Permutation_in z (Permutation_sym (insort_right_perm x a))) in Hz.
      destruct Hz as [<-|Hz]; [now apply string_not_ltb_leb|now apply Hy].
Qed.

Lemma sorted_last_max (l : list string) (x : string) :
  StronglySorted (fun s t => String.leb s t = true) l ->
  In x l -> String.leb x (last l EmptyString) = true.
Proof.
  induction 1 as [|a l Hl IH Ha]; [contradiction|].
  rewrite Forall_forall in Ha.
  destruct l as [|b l].
  - intros [<-|[]]. apply string_leb_refl.
  - change (last (a :: b :: l) EmptyString) with (last (b :: l) EmptyString).
    intros [<-|Hx]; [|now apply IH].
    apply Ha, last_In. discriminate.
Qed.

Lemma matching_log_files_fold (listing acc : list string) :
  Permutation
    (fold_left
       (fun log_files file =>
          if log_name_match file then insort_right file log_files else log_files)
       listing acc)
    (acc ++ filter log_name_match listing)
  /\ (StronglySorted (fun s t => String.leb s t = true) acc ->
      StronglySorted (fun s t => String.leb s t = true)
        (fold_left
           (fun log_files file =>
              if log_name_match file then insort_right file log_files
              else log_files)
           listing acc)).
Proof.
  revert acc. induction listing as [|file listing IH]; intros acc;
    cbn [fold_left filter].
  - rewrite app_nil_r. split; [reflexivity|auto].
  - destruct (log_name_match file) eqn:E.
    + destruct (IH (insort_right file acc)) as [IHp IHs]. split.
      * etransitivity; [exact IHp|].
        etransitivity; [|apply Permutation_middle].
        apply (Permutation_app_tail (filter log_name_match listing)
                 (l := insort_right file acc) (l' := file :: acc)).
        symmetry. apply insort_right_perm.
      * intros Hs. apply IHs. now apply insort_right_sorted.
    + apply IH.
Qed.

Lemma matching_log_files_spec (listing : list string) :
  Permutation (matching_log_files listing) (filter log_name_match listing)
  /\ StronglySorted (fun s t => String.leb s t = true) (matching_log_files listing).
Proof.
  destruct (matching_log_files_fold listing []) as [Hp Hs].
  split; [exact Hp|]. apply Hs. constructor.
Qed.

Lemma matching_log_files_In (listing : list string) (file : string) :
  In file (matching_log_files listing)
  <-> In file listing /\ log_name_match file = true.
Proof.
  destruct (matching_log_files_spec listing) as [Hp _].
  rewrite <- filter_In. split; apply Permutation_in; [|symmetry]; exact Hp.
Qed.

Section FindNewestFacts.

Variable reformat_date : string -> result string.

(** The greatest matching name decides the result. *)
Lemma find_newest_by_greatest (log_dir : string) (listing : list string)
  (newest : string) :
  In newest listing ->
  log_name_match newest = true ->
  (forall file, In file listing -> log_name_match file = true ->
                String.leb file newest = true) ->
  find_newest_log_file reformat_date log_dir listing
  = (newest_log_date <- _get_date_in_the_name reformat_date newest ;;
     Ok (Some {| path_to_file := log_dir;
                 file_name := newest;
                 date_in_file_name := newest_log_date;
                 extension := if endswith newest ".gz" then Some ".gz" else None |})).
Proof.
  intros Hin Hmatch Hmax.
  destruct (matching_log_files_spec listing) as [_ Hs].
  assert (Hnew : In newest (matching_log_files listing))
    by (now apply matching_log_files_In).
  assert (Hne : matching_log_files listing <> [])
    by (intros E; rewrite E in Hnew; contradiction).
  assert (Elast : last (matching_log_files listing) EmptyString = newest).
  { apply String.leb_antisym.
    - pose proof (last_In EmptyString Hne) as Hl.
      apply matching_log_files_In in Hl. now apply Hmax.
    - now apply sorted_last_max. }
  unfold find_newest_log_file.
  destruct (matching_log_files listing) as [|f fs]; [congruence|].
  now rewrite Elast.
Qed.

Lemma find_newest_nonempty (listing : list string) :
  matching_log_files listing <> [] ->
  let newest := last (matching_log_files listing) EmptyString in
  In newest listing
  /\ log_name_match newest = true
  /\ (forall file, In file listing -> log_name_match file = true ->
                   String.leb file newest = true).
Proof.
  intros Hne newest.
  destruct (matching_log_files_spec listing) as [_ Hs].
  pose proof (last_In EmptyString Hne) as Hl.
  apply matching_log_files_In in Hl. destruct Hl as [Hin Hm].
  split; [exact Hin|]. split; [exact Hm|].
  intros file Hf Hfm. apply sorted_last_max; [exact Hs|].
  now apply matching_log_files_In.
Qed.

Lemma matching_log_files_nil (listing : list string) :
  matching_log_files listing = []
  <-> Forall (fun file => log_name_match file = false) listing.
Proof.
  rewrite Forall_forall. split.
  - intros E file Hin. destruct (log_name_match file) eqn:Em; [|reflexivity].
    assert (Hf : In file (matching_log_files listing))
      by (now apply matching_log_files_In).
    rewrite E in Hf. contradiction.
  - intros Hall. destruct (matching_log_files listing) as [|f fs] eqn:E;
      [reflexivity|].
    assert (Hf : In f (matching_log_files listing)) by (rewrite E; now left).
    apply matching_log_files_In in Hf. destruct Hf as [Hin Hm].
    rewrite (Hall f Hin) in Hm. discriminate.
Qed.

End FindNewestFacts.

(** X11.  [find_newest_log_file] returns [None] exactly when no name of
    the directory listing matches the log name pattern. *)
Theorem find_newest_none (reformat_date : string -> result string)
  (log_dir : string) (listing : list string) :
  find_newest_log_file reformat_date log_dir listing = Ok None
  <-> Forall (fun file => log_name_match file = false) listing.
Proof.
  rewrite <- matching_log_files_nil. unfold find_newest_log_file. split.
  - destruct (matching_log_files listing) as [|f fs]; [reflexivity|].
    destruct (_get_date_in_the_name reformat_date (last (f :: fs) EmptyString));
      discriminate.
  - now intros ->.
Qed.

(** X12.  The result of [find_newest_log_file] is decided by the
    greatest matching name of the listing, in the code point order of
    strings: the date conversion is tried on that name only, its
    exception is the exception of the call whatever other logs the
    directory holds, and otherwise the call returns that name with the
    directory, the converted date, and the extension [.gz] exactly when
    the name ends with [.gz]. *)
Theorem find_newest_greatest (reformat_date : string -> result string)
  (log_dir : string) (listing : list string) (newest : string) :
  In newest listing ->
  log_name_match newest = true ->
  (forall file, In file listing -> log_name_match file = true ->
                String.leb file newest = true) ->
  find_newest_log_file reformat_date log_dir listing
  = match _get_date_in_the_name reformat_date newest with
    | Raised e => Raised e
    | Ok newest_log_date =>
      Ok (Some {| path_to_file := log_dir;
                  file_name := newest;
                  date_in_file_name := newest_log_date;
                  extension := if endswith newest ".gz" then Some ".gz" else None |})
    end.
Proof.
  intros Hin Hmatch Hmax.
  rewrite (find_newest_by_greatest reformat_date log_dir listing newest Hin Hmatch Hmax).
  now destruct (_get_date_in_the_name reformat_date newest).
Qed.

Lemma find_newest_greatest_witness :
  find_newest_log_file reformat_eight_digits "./log"
    ["nginx-access-ui.log-20170630"; "nginx-access-ui.log-20171399"]
  = match _get_date_in_the_name reformat_eight_digits "nginx-access-ui.log-20171399" with
    | Raised e => Raised e
    | Ok newest_log_date =>
      Ok (Some {| path_to_file := "./log";
                  file_name := "nginx-access-ui.log-20171399";
                  date_in_file_name := newest_log_date;
                  extension := if endswith "nginx-access-ui.log-20171399" ".gz"
                               then Some ".gz" else None |})
    end.
Proof.
  apply find_newest_greatest.
  - right. now left.
  - vm_compute. reflexivity.
  - intros file [<-|[<-|[]]] _; vm_compute; reflexivity.
Defined.

(** What a returned log file is. *)
Lemma find_newest_some (reformat_date : string -> result string)
  (log_dir : string) (listing : list string) (log_file : LogFile) :
  find_newest_log_file reformat_date log_dir listing = Ok (Some log_file) ->
  In (file_name log_file) listing
  /\ log_name_match (file_name log_file) = true
  /\ (forall file, In file listing -> log_name_match file = true ->
                   String.leb file (file_name log_file) = true)
  /\ path_to_file log_file = log_dir
  /\ _get_date_in_the_name reformat_date (file_name log_file)
     = Ok (date_in_file_name log_file)
  /\ file_opener log_file
     = (if endswith (file_name log_file) ".gz" then gzip_open else plain_open)
  /\ log_path log_file = os_path_join log_dir (file_name log_file).
Proof.
  intros Hres.
  destruct (matching_log_files listing) as [|f fs] eqn:E.
  - unfold find_newest_log_file in Hres. rewrite E in Hres. discriminate.
  - assert (Hne : matching_log_files listing <> []) by (rewrite E; discriminate).
    destruct (find_newest_nonempty listing Hne) as (Hin & Hm & Hmax).
    rewrite (find_newest_by_greatest reformat_date log_dir listing _ Hin Hm Hmax)
      in Hres.
    destruct (_get_date_in_the_name reformat_date
                (last (matching_log_files listing) EmptyString)) as [d|e] eqn:Ed;
      [|discriminate].
    cbn [bind] in Hres. injection Hres as <-.
    unfold file_opener, log_path. cbn [file_name path_to_file date_in_file_name extension].
    repeat split; try assumption.
    now destruct (endswith (last (matching_log_files listing) EmptyString) ".gz").
Qed.

(** X13.  When [find_newest_log_file] returns a log file, its name is a
    name of the listing that matches the pattern and no matching name
    of the listing is greater; its directory is the one given; and
    [log_parser] opens it with [gzip.open] exactly when the name ends
    with [.gz], at the path that joins the directory and the name. *)
Theorem find_newest_result (reformat_date : string -> result string)
  (log_dir : string) (listing : list string) (log_file : LogFile) :
  find_newest_log_file reformat_date log_dir listing = Ok (Some log_file) ->
  In (file_name log_file) listing
  /\ log_name_match (file_name log_file) = true
  /\ (forall file, In file listing -> log_name_match file = true ->
                   String.leb file (file_name log_file) = true)
  /\ path_to_file log_file = log_dir
  /\ _get_date_in_the_name reformat_date (file_name log_file)
     = Ok (date_in_file_name log_file)
  /\ file_opener log_file
     = (if endswith (file_name log_file) ".gz" then gzip_open else plain_open)
  /\ log_path log_file = os_path_join log_dir (file_name log_file).
Proof.
  intros Hres.
  destruct (find_newest_some _ _ _ Hres)
    as (Hin & Hm & Hmax & Hdir & Hdate & Hopen & Hpath).
  repeat split; assumption.
Qed.

Lemma find_newest_result_witness :
  In "nginx-access-ui.log-20170701.gz"
     ["nginx-access-ui.log-20170630"; "nginx-access-ui.log-20170701.gz"]
  /\ log_name_match "nginx-access-ui.log-20170701.gz" = true.
Proof.
  assert (Hres : find_newest_log_file reformat_eight_digits "./log"
                   ["nginx-access-ui.log-20170630"; "nginx-access-ui.log-20170701.gz"]
                 = Ok (Some {| path_to_file := "./log";
                               file_name := "nginx-access-ui.log-20170701.gz";
                               date_in_file_name := "2017.07.01";
                               extension := Some ".gz" |}))
    by (vm_compute; reflexivity).
  destruct (find_newest_result _ _ _ Hres) as (Hin & Hm & _).
  split; [exact Hin|exact Hm].
Defined.

(** X14.  The result of [find_newest_log_file] does not depend on the
    order in which [os.listdir] returns the names. *)
Theorem find_newest_any_order (reformat_date : string -> result string)
  (log_dir : string) (listing listing' : list string) :
  Permutation listing listing' ->
  find_newest_log_file reformat_date log_dir listing
  = find_newest_log_file reformat_date log_dir listing'.
Proof.
  intros Hp.
  destruct (matching_log_files listing) as [|f fs] eqn:E.
  - assert (E' : matching_log_files listing' = []).
    { apply matching_log_files_nil. apply matching_log_files_nil in E.
      rewrite Forall_forall in *. intros file Hin. apply E.
      now apply (Permutation_in file (Permutation_sym Hp)). }
    unfold find_newest_log_file. now rewrite E, E'.
  - assert (Hne : matching_log_files listing <> []) by (rewrite E; discriminate).
    destruct (find_newest_nonempty listing Hne) as (Hin & Hm & Hmax).
    rewrite (find_newest_by_greatest reformat_date log_dir listing _ Hin Hm Hmax).
    symmetry. apply find_newest_by_greatest.
    + now apply (Permutation_in _ Hp).
    + exact Hm.
    + intros file Hf. apply Hmax.
      now apply (Permutation_in file (Permutation_sym Hp)).
Qed.

Lemma find_newest_any_order_witness :
  find_newest_log_file reformat_eight_digits "./log"
    ["nginx-access-ui.log-20170630"; "nginx-access-ui.log-20170701.gz"]
  = find_newest_log_file reformat_eight_digits "./log"
      ["nginx-access-ui.log-20170701.gz"; "nginx-access-ui.log-20170630"].
Proof.
  apply find_newest_any_order. apply perm_swap.
Defined.

(** ** The shape of a matching name *)

Lemma strip_prefix_Some (prefix s rest : string) :
  strip_prefix prefix s = Some rest -> s = (prefix ++ rest)%string.
Proof.
  revert s. induction prefix as [|c prefix IH]; intros s; simpl.
  - now intros [= ->].
  - destruct s as [|c' s]; [discriminate|].
    destruct (Ascii.eqb_spec c c') as [<-|]; [|discriminate].
    intros Hs. now rewrite (IH s Hs).
Qed.

Lemma strip_digits_Some (n : nat) (s rest : string) :
  strip_digits n s = Some rest ->
  exists D, s = (D ++ rest)%string
            /\ String.length D = n
            /\ forall ch, has_char ch D = true -> is_digit ch = true.
Proof.
  revert s. induction n as [|n IH]; intros s; simpl.
  - intros [= ->]. exists EmptyString. repeat split. discriminate.
  - destruct s as [|c s]; [discriminate|].
    destruct (is_digit c) eqn:Ec; [|discriminate].
    intros Hs. destruct (IH s Hs) as (D & -> & Hlen & Hdig).
    exists (String c D). simpl. repeat split; [now rewrite Hlen|].
    intros ch. destruct (Ascii.eqb_spec c ch) as [<-|]; simpl; auto.
Qed.

Lemma at_end_cases (s : string) : at_end s = true -> s = EmptyString \/ s = lf.
Proof.
  destruct s as [|c [|c' s]]; simpl; try discriminate; [now left|].
  destruct (Ascii.eqb_spec c (ascii_of_nat 10)) as [->|]; [|discriminate].
  now right.
Qed.

Lemma append_empty_r (s : string) : (s ++ EmptyString)%string = s.
Proof. induction s as [|c s IH]; simpl; [reflexivity|now rewrite IH]. Qed.

Lemma has_char_app (c : ascii) (a b : string) :
  has_char c (a ++ b)%string = has_char c a || has_char c b.
Proof.
  induction a as [|x a IH]; simpl; [reflexivity|].
  now rewrite IH, orb_assoc.
Qed.

Lemma split_nosep (sep : ascii) (s : string) :
  has_char sep s = false -> split sep s = [s].
Proof.
  induction s as [|c s IH]; simpl; [reflexivity|].
  destruct (Ascii.eqb c sep); simpl; [discriminate|].
  intros Hs. now rewrite (IH Hs).
Qed.

Lemma split_app_sep (sep : ascii) (a b : string) :
  has_char sep a = false ->
  split sep (a ++ String sep b)%string = a :: split sep b.
Proof.
  induction a as [|c a IH]; simpl.
  - now rewrite Ascii.eqb_refl.
  - destruct (Ascii.eqb c sep); simpl; [discriminate|].
    intros Ha. now rewrite (IH Ha).
Qed.

Lemma log_name_shape (name : string) :
  log_name_match name = true ->
  exists (c : ascii) (D tail : string),
    name = ("nginx-access-ui" ++ String c ("log-" ++ D ++ tail))%string
    /\ String.length D = 8%nat
    /\ (forall ch, has_char ch D = true -> is_digit ch = true)
    /\ (tail = EmptyString \/ tail = lf \/ tail = ".gz"%string
        \/ tail = (".gz" ++ lf)%string).
Proof.
  unfold log_name_match.
  destruct (strip_prefix "nginx-access-ui" name) as [[|c rest]|] eqn:E1;
    try discriminate.
  apply strip_prefix_Some in E1.
  destruct (Ascii.eqb c (ascii_of_nat 10)); [discriminate|].
  destruct (strip_prefix "log-" rest) as [rest'|] eqn:E2; [|discriminate].
  apply strip_prefix_Some in E2.
  destruct (strip_digits 8 rest') as [tail|] eqn:E3; [|discriminate].
  apply strip_digits_Some in E3. destruct E3 as (D & -> & Hlen & Hdig).
  intros Hend. exists c, D, tail. subst.
  split; [reflexivity|]. split; [exact Hlen|]. split; [exact Hdig|].
  apply orb_true_iff in Hend. destruct Hend as [Hend|Hend].
  - apply at_end_cases in Hend. tauto.
  - destruct (strip_prefix ".gz" tail) as [tail'|] eqn:E4; [|discriminate].
    apply strip_prefix_Some in E4. apply at_end_cases in Hend.
    destruct Hend as [-> | ->]; subst; tauto.
Qed.

(** X15.  What [_get_date_in_the_name] hands to the date conversion for
    a name that matches the log name pattern.  Such a name is
    [nginx-access-ui], one character, [log-], eight digits and a tail
    that is empty, [.gz], or either followed by a line feed; the field
    extraction never raises [IndexError] on it.  The date conversion
    receives the eight digits, except that when the character after
    [ui] is a hyphen it receives [log], and when the digits are followed
    directly by the line feed it receives the digits with the line
    feed. *)
Theorem log_name_date_field (reformat_date : string -> result string)
  (name : string) :
  log_name_match name = true ->
  exists (c : ascii) (D tail : string),
    name = ("nginx-access-ui" ++ String c ("log-" ++ D ++ tail))%string
    /\ String.length D = 8%nat
    /\ (forall ch, has_char ch D = true -> is_digit ch = true)
    /\ (tail = EmptyString \/ tail = lf \/ tail = ".gz"%string
        \/ tail = (".gz" ++ lf)%string)
    /\ _get_date_in_the_name reformat_date name
       = reformat_date
           (if Ascii.eqb c "-" then "log"%string
            else if String.eqb tail lf then (D ++ lf)%string else D).
Proof.
  intros Hm. destruct (log_name_shape name Hm) as (c & D & tail & -> & Hlen & Hdig & Htail).
  exists c, D, tail. repeat (split; [assumption || reflexivity|]).
  assert (HD : forall ch, is_digit ch = false -> has_char ch D = false).
  { intros ch Hch. destruct (has_char ch D) eqn:E; [|reflexivity].
    apply Hdig in E. congruence. }
  assert (Hhyphen : has_char "-" (D ++ tail)%string = false).
  { rewrite has_char_app, (HD "-"%char eq_refl).
    destruct Htail as [->|[->|[->| ->]]]; reflexivity. }
  unfold _get_date_in_the_name.
  destruct (Ascii.eqb_spec c "-") as [->|Hc].
  - change ("nginx-access-ui" ++ String "-" ("log-" ++ D ++ tail))%string
      with ("nginx" ++ String "-" ("access" ++ String "-"
              ("ui" ++ String "-" ("log" ++ String "-" (D ++ tail)))))%string.
    rewrite !split_app_sep by reflexivity. reflexivity.
  - change ("nginx-access-ui" ++ String c ("log-" ++ D ++ tail))%string
      with ("nginx" ++ String "-" ("access" ++ String "-"
              (String "u" (String "i" (String c "log")) ++ String "-" (D ++ tail))))%string.
    rewrite !split_app_sep;
      [|simpl; apply Ascii.eqb_neq in Hc; now rewrite Hc|reflexivity|reflexivity].
    rewrite (split_nosep "-" _ Hhyphen). cbn [nth_error].
    destruct Htail as [->|[->|[->| ->]]].
    + rewrite append_empty_r, (split_nosep "." D (HD "."%char eq_refl)).
      reflexivity.
    + rewrite split_nosep; [reflexivity|].
      rewrite has_char_app, (HD "."%char eq_refl). reflexivity.
    + change (D ++ ".gz")%string with (D ++ String "." "gz")%string.
      rewrite (split_app_sep "." D "gz" (HD "."%char eq_refl)). reflexivity.
    + change (D ++ ".gz" ++ lf)%string with (D ++ String "." ("gz" ++ lf))%string.
      rewrite (split_app_sep "." D _ (HD "."%char eq_refl)). reflexivity.
Qed.

Lemma log_name_date_field_witness :
  exists (c : ascii) (D tail : string),
    "nginx-access-ui.log-20170630.gz"%string
    = ("nginx-access-ui" ++ String c ("log-" ++ D ++ tail))%string
    /\ _get_date_in_the_name reformat_eight_digits "nginx-access-ui.log-20170630.gz"
       = reformat_eight_digits
           (if Ascii.eqb c "-" then "log"%string
            else if String.eqb tail lf then (D ++ lf)%string else D).
Proof.
  assert (Hm : log_name_match "nginx-access-ui.log-20170630.gz" = true)
    by (vm_compute; reflexivity).
  destruct (log_name_date_field reformat_eight_digits _ Hm)
    as (c & D & tail & Hname & _ & _ & _ & Hdate).
  exists c, D, tail. split; [exact Hname|exact Hdate].
Defined.

(** ** The report path *)

Lemma string_length_app (a b : string) :
  String.length (a ++ b)%string = (String.length a + String.length b)%nat.
Proof. induction a as [|c a IH]; simpl; [reflexivity|now rewrite IH]. Qed.

Lemma append_inj_l (a x y : string) : (a ++ x = a ++ y)%string -> x = y.
Proof.
  induction a as [|c a IH]; simpl; [auto|]. intros [= Hxy]. now apply IH.
Qed.

Lemma append_inj_r (x y b : string) : (x ++ b = y ++ b)%string -> x = y.
Proof.
  revert y. induction x as [|c x IH]; intros [|c' y]; simpl; intros Hxy.
  - reflexivity.
  - apply (f_equal String.length) in Hxy. simpl in Hxy.
    rewrite string_length_app in Hxy. lia.
  - apply (f_equal String.length) in Hxy. simpl in Hxy.
    rewrite string_length_app in Hxy. lia.
  - injection Hxy as -> Hxy. now rewrite (IH y Hxy).
Qed.

(** X16.  [build_report_path] puts the report in the report directory,
    under the name [report-<date>.html], with one [/] between them
    unless the directory is empty or already ends with [/]; and two
    different dates never give the same path. *)
Theorem build_report_path_dates (report_dir report_date report_date' : string) :
  build_report_path report_dir report_date
  = (report_dir
     ++ (if negb (nonempty report_dir) || endswith report_dir "/" then "" else "/")
     ++ "report-" ++ report_date ++ ".html")%string
  /\ (build_report_path report_dir report_date
      = build_report_path report_dir report_date' ->
      report_date = report_date').
Proof.
  assert (Hshape : forall d,
             build_report_path report_dir d
             = (report_dir
                ++ (if negb (nonempty report_dir) || endswith report_dir "/"
                    then "" else "/")
                ++ "report-" ++ d ++ ".html")%string).
  { intros d. unfold build_report_path, os_path_join, report_name.
    change (startswith ("report-" ++ d ++ ".html") "/") with false.
    now destruct (negb (nonempty report_dir) || endswith report_dir "/"). }
  split; [apply Hshape|].
  rewrite !Hshape. intros Heq.
  apply append_inj_l, append_inj_l in Heq.
  simpl in Heq. injection Heq as Heq. now apply append_inj_r in Heq.
Qed.

(** ** The newest log *)








(** * The shares of a full report *)

Lemma mapM_Forall2 {A B : Type} (f : A -> result B) (l : list A) (rows : list B) :
  mapM f l = Ok rows -> Forall2 (fun a b => f a = Ok b) l rows.
Proof.
  revert rows. induction l as [|a l IH]; intros rows; cbn [mapM].
  - intros [= <-]. constructor.
  - destruct (f a) as [b|e] eqn:Ea; [|discriminate].
    destruct (mapM f l) as [bs|e]; [|discriminate].
    cbn [bind]. intros [= <-]. constructor; [exact Ea|now apply IH].
Qed.

Lemma sumR_perm {R : Type} `{ExactArith R} (l l' : list R) :
  Permutation l l' -> sumR l = sumR l'.
Proof.
  unfold sumR. induction 1 as [|x l l' _ IH|x y l|l l' l'' _ IH1 _ IH2]; simpl.
  - reflexivity.
  - now rewrite IH.
  - rewrite !add_assoc. f_equal. apply add_comm.
  - now rewrite IH1.
Qed.

Lemma of_int_add_Qc (a b : Z) :
  of_int (a + b) = add (of_int a) (of_int b) :> Qc.
Proof.
  change (Q2Qc (inject_Z (a + b)) = Q2Qc (inject_Z a) + Q2Qc (inject_Z b)).
  apply Qc_is_canon. unfold Qcplus, Q2Qc. cbn [this].
  rewrite !Qred_correct, inject_Z_plus. apply Qeq_refl.
Qed.

Lemma div_add_Qc (x y z : Qc) : div (add x y) z = add (div x z) (div y z).
Proof. simpl. unfold Qcdiv. apply Qcmult_plus_distr_l. Qed.

Lemma mul_add_Qc (x y z : Qc) : mul (add x y) z = add (mul x z) (mul y z).
Proof. simpl. apply Qcmult_plus_distr_l. Qed.

Lemma shares_of_rows (totals : totals Qc) (urls : dict (aggregate Qc))
  (rows : list (ReportRow.t Qc)) :
  Forall2 (fun item row => url_stats totals item = Ok row) urls rows ->
  sumR (map (@ReportRow.count_perc Qc) rows)
  = div (of_int (sum_of_counts urls * total_requests totals)) (of_int 100)
  /\ sumR (map (@ReportRow.time_perc Qc) rows)
     = div (mul (sum_of_time_sums urls) (total_time totals)) (of_int 100).
Proof.
  induction 1 as [|[url a] row urls rows Hrow _ [IHc IHt]].
  - split; apply Qc_is_canon; reflexivity.
  - apply url_stats_inv in Hrow.
    destruct Hrow as (_ & _ & _ & _ & _ & _ & Hcp & Htp).
    split.
    + change (sumR (map (@ReportRow.count_perc Qc) (row :: rows)))
        with (add (ReportRow.count_perc row) (sumR (map (@ReportRow.count_perc Qc) rows))).
      change (sum_of_counts ((url, a) :: urls))
        with (count a + sum_of_counts urls)%Z.
      now rewrite Z.mul_add_distr_r, of_int_add_Qc, div_add_Qc, Hcp, IHc.
    + change (sumR (map (@ReportRow.time_perc Qc) (row :: rows)))
        with (add (ReportRow.time_perc row) (sumR (map (@ReportRow.time_perc Qc) rows))).
      change (sum_of_time_sums ((url, a) :: urls))
        with (add (py_sum (request_times a)) (sum_of_time_sums urls)).
      now rewrite mul_add_Qc, div_add_Qc, Htp, IHt.
Qed.

(** X18.  The shares as the code computes them, over exact rationals.
    In a report that keeps every resource, the [count_perc] of the rows
    add up to [total_requests * total_requests / 100] and the
    [time_perc] to [total_time * total_time / 100], not to 100. *)
Theorem shares_of_full_report (records : list (string * Qc)) (report_size : Z) :
  (Z.of_nat (length (nodup string_dec (map fst records))) <= report_size)%Z ->
  exists report : list (ReportRow.t Qc),
    pipeline (iter records) report_size = Ok report
    /\ sumR (map (@ReportRow.count_perc Qc) report)
       = div (of_int (Z.of_nat (length records) * Z.of_nat (length records)))
             (of_int 100)
    /\ sumR (map (@ReportRow.time_perc Qc) report)
       = div (mul (py_sum (map snd records)) (py_sum (map snd records)))
             (of_int 100).
Proof.
  intros HN.
  destruct (mapM_url_stats (fst (aggregated records)) (snd (aggregated records))
              (aggregated_nonempty records)) as (rows & Hrows & Hurls & _).
  destruct (keys_of_records records) as (_ & _ & Hlen).
  destruct (totals_of_records records) as [Hn Ht].
  destruct (aggregated_conserves records) as [Hc Hs].
  pose proof (mapM_Forall2 _ _ Hrows) as Hall.
  apply shares_of_rows in Hall. destruct Hall as [Hcp Htp].
  rewrite Hc, Hn in Hcp. rewrite Hs, Ht in Htp.
  assert (Hperm : Permutation (rank report_size rows) rows).
  { destruct (rank_prefix report_size rows) as (dropped & Hsorted & _ & Hkeep & _).
    assert (Hrl : length rows = length (snd (aggregated records))).
    { rewrite <- (length_map (@ReportRow.url Qc) rows), Hurls. apply length_map. }
    assert (Hd : dropped = []).
    { apply (f_equal (@length _)) in Hsorted.
      rewrite py_sorted_length, length_app, Hkeep in Hsorted by lia.
      destruct dropped; [reflexivity|simpl in Hsorted; lia]. }
    rewrite Hd, app_nil_r in Hsorted. rewrite <- Hsorted.
    symmetry. apply py_sorted_perm. }
  exists (rank report_size rows). split; [|split].
  - unfold pipeline, count_stats. rewrite analyze_log_iter. simpl.
    now rewrite Hrows.
  - rewrite <- Hcp. apply sumR_perm, Permutation_map, Hperm.
  - rewrite <- Htp. apply sumR_perm, Permutation_map, Hperm.
Qed.

Lemma shares_of_full_report_witness :
  exists report : list (ReportRow.t Qc),
    pipeline (iter [("/a", dec 1 10); ("/b", dec 2 10); ("/a", dec 3 10)]) 10
    = Ok report
    /\ sumR (map (@ReportRow.count_perc Qc) report) = div (of_int (3 * 3)) (of_int 100).
Proof.
  assert (HN : (Z.of_nat (length (nodup string_dec
                   (map fst [("/a", dec 1 10); ("/b", dec 2 10); ("/a", dec 3 10)])))
                <= 10)%Z)
    by (vm_compute; intros E; discriminate E).
  destruct (@shares_of_full_report _ 10%Z HN) as (report & Hrep & Hcp & _).
  exists report. split; [exact Hrep|exact Hcp].
Defined.
